(** * Stock Trades REST API: authentication gate, account service, trade ledger

    A shallow embedding of the Express application (routes, middleware,
    JWT helpers, Joi schemas and the Prisma data model) together with the
    properties of its dual-token authentication scheme and of its
    append-only trade ledger.

    Conventions.
    - JavaScript numbers are exact rationals ([Q]); identifiers and
      timestamps are integers ([Z]).  Column widths (32-bit [Int],
      [VARCHAR]) are not modelled.
    - [Date.now()] is an explicit argument [now], in milliseconds.
    - A [string] holds the UTF-8 bytes of the JavaScript string; the
      length of a string is counted as JavaScript counts it, in UTF-16
      code units ([js_length]).
    - The libraries the application calls ([jsonwebtoken], [bcryptjs],
      [joi], the string-to-number conversions and the case mapping of the
      JavaScript runtime) are interfaces (type classes); the application
      code is a function of them.  The module [Reference] implements the interfaces, which
      shows that their laws can be met, and [Scenario] runs the service
      on concrete requests with it.
    - The two signing secrets are taken to be set in the environment (the
      service cannot sign a token otherwise). *)

From Stdlib Require Import ZArith QArith String Ascii List Lia.
From stdpp Require Import base strings list gmap sorting.

Set Warnings "-register-all".
Local Open Scope Z_scope.

(* ===================================================================== *)
(** ** JavaScript values                                                  *)
(* ===================================================================== *)

(** Parsed JSON, as [express.json()] hands it to the handlers and as
    [res.json] sends it back.  Object fields keep their order. *)
Inductive Json : Type :=
| JNull
| JBool (b : bool)
| JNum (q : Q)
| JStr (s : string)
| JArr (items : list Json)
| JObj (fields : list (string * Json)).

(** Property access [o.k] on a list of fields. *)
Fixpoint assoc (k : string) (fields : list (string * Json)) : option Json :=
  match fields with
  | [] => None
  | (k', v) :: rest => if String.eqb k k' then Some v else assoc k rest
  end.

(** [const { k } = value]: [None] is [undefined]. *)
Definition get (k : string) (j : Json) : option Json :=
  match j with
  | JObj fields => assoc k fields
  | _ => None
  end.

(** Truthiness of a value, as tested by [if (x)] and [!x]. *)
Definition truthy (v : option Json) : bool :=
  match v with
  | None => false
  | Some JNull => false
  | Some (JBool b) => b
  | Some (JNum q) => negb (Qnum q =? 0)
  | Some (JStr s) => negb (String.eqb s "")
  | Some (JArr _) => true
  | Some (JObj _) => true
  end.

Definition JInt (z : Z) : Json := JNum (inject_Z z).

(** A number is an integer when its denominator divides its numerator. *)
Definition is_integer (q : Q) : bool := (Qnum q mod Zpos (Qden q) =? 0).

(** Truncation toward zero: the integer a number denotes for [parseInt]
    and for Prisma's [Int] columns. *)
Definition Qtrunc (q : Q) : Z := Z.quot (Qnum q) (Zpos (Qden q)).

Definition Qltb (a b : Q) : bool := (Qnum a * Zpos (Qden b) <? Qnum b * Zpos (Qden a)).
Definition Qleb (a b : Q) : bool := (Qnum a * Zpos (Qden b) <=? Qnum b * Zpos (Qden a)).

(** [String.prototype.split(' ')]: every single separator character cuts. *)
Fixpoint split (sep : ascii) (s : string) : list string :=
  match s with
  | EmptyString => [EmptyString]
  | String c rest =>
      if Ascii.eqb c sep then EmptyString :: split sep rest
      else match split sep rest with
           | [] => [String c EmptyString]
           | w :: ws => String c w :: ws
           end
  end.

(** [s.length]: the number of UTF-16 code units of the string whose UTF-8
    bytes are [s].  A continuation byte (10xxxxxx) adds nothing, the lead
    byte of a four-byte sequence (a code point above U+FFFF, which takes
    two units) adds two, every other byte one. *)
Definition utf16_units (c : ascii) : nat :=
  let n := nat_of_ascii c in
  if (n <? 128)%nat then 1%nat
  else if (n <? 192)%nat then 0%nat
  else if (n <? 240)%nat then 1%nat
  else 2%nat.

Fixpoint js_length (s : string) : nat :=
  match s with
  | EmptyString => 0%nat
  | String c rest => (utf16_units c + js_length rest)%nat
  end.

(** The capital of an ASCII letter; any other byte is left as it is. *)
Definition upper_ascii (c : ascii) : ascii :=
  let n := nat_of_ascii c in
  if ((97 <=? n)%nat && (n <=? 122)%nat)%bool then ascii_of_nat (n - 32) else c.

(** What the application calls of the runtime: the string-to-number
    conversions on strings, and [String.prototype.toUpperCase].  The
    latter follows the Unicode case mappings of the runtime ("é" becomes
    "É", "ß" becomes "SS"), character by character; its two laws fix it
    where every runtime agrees: an ASCII character is mapped on its own,
    the letters a to z to their capitals and any other to itself, and
    the rest of the string is mapped after it. *)
Class JsGlobals := {
  parseFloat_string : string -> option Q;   (* [None] is NaN *)
  parseInt_string : string -> option Z;
  toUpperCase : string -> string;
  toUpperCase_empty : toUpperCase "" = "";
  toUpperCase_ascii : forall c s,
    (nat_of_ascii c < 128)%nat ->
    toUpperCase (String c s) = String (upper_ascii c) (toUpperCase s)
}.

(** [parseFloat(v)] and [parseInt(v)].  A number is first printed and then
    re-read, which gives the number back, truncated for [parseInt] (exact
    in the safe-integer range that validated input lies in).  Values that
    are neither numbers nor strings, which validation never lets through,
    are read as NaN. *)
Definition parseFloat `{JsGlobals} (v : option Json) : option Q :=
  match v with
  | Some (JNum q) => Some q
  | Some (JStr s) => parseFloat_string s
  | _ => None
  end.

Definition parseInt `{JsGlobals} (v : option Json) : option Z :=
  match v with
  | Some (JNum q) => Some (Qtrunc q)
  | Some (JStr s) => parseInt_string s
  | _ => None
  end.

(** Thrown values: the fields of an [Error] the application inspects. *)
Record JsError := {
  err_name : string;
  err_message : string;
  err_code : option string;
  err_status : option Z;
  err_stack : string
}.

Definition mkError (name message : string) (code : option string) : JsError :=
  {| err_name := name; err_message := message; err_code := code;
     err_status := None; err_stack := name |}.

(** A computation either returns or throws. *)
Inductive Result (A : Type) : Type :=
| Ok (a : A)
| Throw (e : JsError).
Arguments Ok {A} a.
Arguments Throw {A} e.

(** Sequencing ([x ← r; k]): a throw skips what follows, as in a [try]
    block. *)
#[global] Instance Result_bind : MBind Result := fun A B k r =>
  match r with
  | Ok a => k a
  | Throw e => Throw e
  end.

Definition TypeError (message : string) : JsError := mkError "TypeError" message None.

(* ===================================================================== *)
(** ** Environment ([process.env])                                        *)
(* ===================================================================== *)

(** The expiry settings are the configured time spans in seconds ([None]
    when the variable is unset, which selects the default). *)
Record Env := {
  JWT_ACCESS_SECRET : string;
  JWT_REFRESH_SECRET : string;
  JWT_ACCESS_EXPIRY : option Z;
  JWT_REFRESH_EXPIRY : option Z;
  NODE_ENV : option string
}.

(** ['10m'] and ['7d'] in seconds. *)
Definition default_access_expiry : Z := 600.
Definition default_refresh_expiry : Z := 604800.

Definition access_expiry (env : Env) : Z :=
  default default_access_expiry (JWT_ACCESS_EXPIRY env).
Definition refresh_expiry (env : Env) : Z :=
  default default_refresh_expiry (JWT_REFRESH_EXPIRY env).

(* ===================================================================== *)
(** ** utils/jwt.js                                                       *)
(* ===================================================================== *)

(** The claims the service signs: [{ userId, email }] for an access token,
    [{ userId }] for a refresh token. *)
Record Payload := {
  userId : Z;
  email : option string
}.

(** What [jwt.verify] returns: the claims with [iat] and [exp] (seconds). *)
Record Decoded := {
  claims : Payload;
  iat : Z;
  exp : Z
}.

Definition TokenExpiredError : JsError :=
  mkError "TokenExpiredError" "jwt expired" None.
Definition JsonWebTokenError (message : string) : JsError :=
  mkError "JsonWebTokenError" message None.

(** The [jsonwebtoken] library (HS256).  [jwt_sign payload secret
    expiresIn clock] and [jwt_verify token secret clock], the clock in
    seconds.  The laws are those of a perfect signature scheme: a token
    verifies under the secret it was signed with until it expires, and
    under no other secret. *)
Class JsonWebToken := {
  jwt_sign : Payload -> string -> Z -> Z -> string;
  jwt_verify : string -> string -> Z -> Result Decoded;
  jwt_verify_sign : forall p s d t t',
    t' < t + d ->
    jwt_verify (jwt_sign p s d t) s t' = Ok {| claims := p; iat := t; exp := t + d |};
  jwt_verify_expired : forall p s d t t',
    t + d <= t' ->
    jwt_verify (jwt_sign p s d t) s t' = Throw TokenExpiredError;
  jwt_verify_other_secret : forall p s s' d t t',
    s <> s' ->
    jwt_verify (jwt_sign p s d t) s' t' = Throw (JsonWebTokenError "invalid signature")
}.

(** [Math.floor(Date.now() / 1000)] *)
Definition clock (now : Z) : Z := now / 1000.

Definition generateAccessToken `{JsonWebToken} (env : Env) (now : Z) (payload : Payload) : string :=
  jwt_sign payload (JWT_ACCESS_SECRET env) (access_expiry env) (clock now).

Definition generateRefreshToken `{JsonWebToken} (env : Env) (now : Z) (payload : Payload) : string :=
  jwt_sign payload (JWT_REFRESH_SECRET env) (refresh_expiry env) (clock now).

Definition verifyAccessToken `{JsonWebToken} (env : Env) (now : Z) (token : string) : Result Decoded :=
  jwt_verify token (JWT_ACCESS_SECRET env) (clock now).

Definition verifyRefreshToken `{JsonWebToken} (env : Env) (now : Z) (token : string) : Result Decoded :=
  jwt_verify token (JWT_REFRESH_SECRET env) (clock now).

(* ===================================================================== *)
(** ** Requests and responses                                             *)
(* ===================================================================== *)

Inductive Method := GET | POST | PUT | PATCH | DELETE.

(** [req_path] holds the path segments below the router's mount point;
    [req_user] is [req.user]. *)
Record Request := {
  req_method : Method;
  req_path : list string;
  req_originalUrl : string;
  req_authorization : option string;
  req_body : Json;
  req_query : Json;
  req_params : Json;
  req_user : option Decoded
}.

Record Response := {
  status : Z;
  body : Json
}.

(** [res.status(code).json(body)] *)
Definition json (code : Z) (b : Json) : Response := {| status := code; body := b |}.

(** What a middleware does with a request: answer it, pass it on
    ([next()]), or pass an error on ([next(error)]). *)
Inductive Outcome :=
| Respond (r : Response)
| Next (req : Request)
| NextErr (e : JsError).

Definition set_user (req : Request) (d : Decoded) : Request :=
  {| req_method := req_method req; req_path := req_path req;
     req_originalUrl := req_originalUrl req;
     req_authorization := req_authorization req;
     req_body := req_body req; req_query := req_query req;
     req_params := req_params req; req_user := Some d |}.

(* ===================================================================== *)
(** ** middleware/authMiddleware.js                                       *)
(* ===================================================================== *)

(** [authHeader && authHeader.split(' ')[1]]: [None] is [undefined]. *)
Definition bearerToken (authHeader : option string) : option string :=
  match authHeader with
  | None => None
  | Some EmptyString => Some EmptyString
  | Some h => split " " h !! 1%nat
  end.

Definition authenticateToken `{JsonWebToken} (env : Env) (now : Z) (req : Request) : Outcome :=
  let token := bearerToken (req_authorization req) in
  match token with
  | None | Some EmptyString =>
      Respond (json 401 (JObj [("error", JStr "Access token required")]))
  | Some token =>
      match verifyAccessToken env now token with
      | Ok decoded => Next (set_user req decoded)
      | Throw error =>
          if String.eqb (err_name error) "TokenExpiredError" then
            Respond (json 401 (JObj [("error", JStr "Access token expired")]))
          else if String.eqb (err_name error) "JsonWebTokenError" then
            Respond (json 401 (JObj [("error", JStr "Invalid access token")]))
          else
            Respond (json 500 (JObj [("error", JStr "Token verification failed")]))
      end
  end.

(* ===================================================================== *)
(** ** middleware/errorHandler.js                                         *)
(* ===================================================================== *)

Definition errorHandler (env : Env) (err : JsError) : Response :=
  if bool_decide (err_code err = Some "P2002") then
    json 409 (JObj [("error", JStr "Unique constraint violation");
                    ("details", JStr "A record with this data already exists")])
  else if bool_decide (err_code err = Some "P2025") then
    json 404 (JObj [("error", JStr "Record not found")])
  else if String.eqb (err_name err) "JsonWebTokenError" then
    json 401 (JObj [("error", JStr "Invalid token")])
  else if String.eqb (err_name err) "TokenExpiredError" then
    json 401 (JObj [("error", JStr "Token expired")])
  else
    json (match err_status err with
          | Some s => if s =? 0 then 500 else s
          | None => 500
          end)
         (JObj (("error", JStr (if String.eqb (err_message err) ""
                                then "Internal server error"
                                else err_message err))
                :: (if bool_decide (NODE_ENV env = Some "development")
                    then [("stack", JStr (err_stack err))]
                    else []))).

(** Express's default handling at the end of the chain (server.js): an
    unanswered request gets the 404 of the catch-all route, an error goes
    to [errorHandler]. *)
Definition method_name (m : Method) : string :=
  match m with
  | GET => "GET" | POST => "POST" | PUT => "PUT"
  | PATCH => "PATCH" | DELETE => "DELETE"
  end.

Definition finish (env : Env) (o : Outcome) : Response :=
  match o with
  | Respond r => r
  | Next req =>
      json 404 (JObj [("error", JStr "Route not found");
                      ("path", JStr (req_originalUrl req));
                      ("method", JStr (method_name (req_method req)))])
  | NextErr e => errorHandler env e
  end.

(* ===================================================================== *)
(** ** utils/validationSchemas.js                                         *)
(* ===================================================================== *)

(** The part of Joi the schemas use.  [joi_valid] is the allow-list set by
    [.valid(...)]. *)
Inductive JoiType := JoiString | JoiNumber.

Inductive JoiRule :=
| RuleEmail
| RuleMin (n : Z)
| RuleMax (n : Z)
| RuleInteger
| RulePositive.

Record JoiSchema := {
  joi_type : JoiType;
  joi_valid : option (list string);
  joi_rules : list JoiRule;
  joi_required : bool
}.

Definition ObjectSchema := list (string * JoiSchema).

Module Joi.

Definition string : JoiSchema :=
  {| joi_type := JoiString; joi_valid := None; joi_rules := []; joi_required := false |}.

Definition number : JoiSchema :=
  {| joi_type := JoiNumber; joi_valid := None; joi_rules := []; joi_required := false |}.

Definition rule (r : JoiRule) (s : JoiSchema) : JoiSchema :=
  {| joi_type := joi_type s; joi_valid := joi_valid s;
     joi_rules := joi_rules s ++ [r]; joi_required := joi_required s |}.

Definition email := rule RuleEmail.
Definition min (n : Z) := rule (RuleMin n).
Definition max (n : Z) := rule (RuleMax n).
Definition integer := rule RuleInteger.
Definition positive := rule RulePositive.

Definition valid (vs : list String.string) (s : JoiSchema) : JoiSchema :=
  {| joi_type := joi_type s; joi_valid := Some vs;
     joi_rules := joi_rules s; joi_required := joi_required s |}.

Definition required (s : JoiSchema) : JoiSchema :=
  {| joi_type := joi_type s; joi_valid := joi_valid s;
     joi_rules := joi_rules s; joi_required := true |}.

Definition optional (s : JoiSchema) : JoiSchema :=
  {| joi_type := joi_type s; joi_valid := joi_valid s;
     joi_rules := joi_rules s; joi_required := false |}.

Definition object (keys : ObjectSchema) : ObjectSchema := keys.

End Joi.

(** Method chains are written in the order of the source:
    [Joi.string .> Joi.email .> Joi.required]. *)
Notation "s .> f" := (f s) (at level 40, left associativity, only parsing).

Definition signupSchema : ObjectSchema := Joi.object [
  ("email", Joi.string .> Joi.email .> Joi.required);
  ("password", Joi.string .> Joi.min 6 .> Joi.required)
].

Definition loginSchema : ObjectSchema := Joi.object [
  ("email", Joi.string .> Joi.email .> Joi.required);
  ("password", Joi.string .> Joi.required)
].

Definition createTradeSchema : ObjectSchema := Joi.object [
  ("type", Joi.string .> Joi.valid ["buy"; "sell"] .> Joi.required);
  ("user_id", Joi.number .> Joi.integer .> Joi.positive .> Joi.required);
  ("symbol", Joi.string .> Joi.required);
  ("shares", Joi.number .> Joi.integer .> Joi.min 1 .> Joi.max 100 .> Joi.required);
  ("price", Joi.number .> Joi.positive .> Joi.required)
].

Definition tradeQuerySchema : ObjectSchema := Joi.object [
  ("type", Joi.string .> Joi.valid ["buy"; "sell"] .> Joi.optional);
  ("user_id", Joi.number .> Joi.integer .> Joi.positive .> Joi.optional)
].

Definition tradeIdSchema : ObjectSchema := Joi.object [
  ("id", Joi.number .> Joi.integer .> Joi.positive .> Joi.required)
].

(** *** What a schema accepts *)

(** The two judgements Joi makes about the text of a string: whether it is
    an e-mail address, and which number (if any) it converts to. *)
Class JoiLib := {
  joi_is_email : string -> bool;
  joi_to_number : string -> option Q
}.

Definition MAX_SAFE_INTEGER : Z := 9007199254740991.

Definition string_rule `{JoiLib} (s : string) (r : JoiRule) : bool :=
  match r with
  | RuleEmail => joi_is_email s
  | RuleMin n => n <=? Z.of_nat (js_length s)
  | RuleMax n => Z.of_nat (js_length s) <=? n
  | RuleInteger | RulePositive => true
  end.

Definition number_rule (q : Q) (r : JoiRule) : bool :=
  match r with
  | RuleEmail => true
  | RuleMin n => Qleb (inject_Z n) q
  | RuleMax n => Qleb q (inject_Z n)
  | RuleInteger => is_integer q
  | RulePositive => Qltb (inject_Z 0) q
  end.

(** With Joi's default [convert], a string that reads as a number is taken
    as that number. *)
Definition coerce_number `{JoiLib} (v : Json) : option Q :=
  match v with
  | JNum q => Some q
  | JStr s => joi_to_number s
  | _ => None
  end.

Definition safe_number (q : Q) : bool :=
  Qleb (inject_Z (- MAX_SAFE_INTEGER)) q && Qleb q (inject_Z MAX_SAFE_INTEGER).

(** The validated (and converted) value of one key, [None] on a
    validation error.  An allow-list admits exactly its members; a string
    must be non-empty; a number must be in the safe range. *)
Definition validate_value `{JoiLib} (sch : JoiSchema) (v : Json) : option Json :=
  match joi_valid sch with
  | Some vs =>
      match v with
      | JStr s => if bool_decide (s ∈ vs) then Some v else None
      | _ => None
      end
  | None =>
      match joi_type sch with
      | JoiString =>
          match v with
          | JStr s =>
              if String.eqb s "" then None
              else if forallb (string_rule s) (joi_rules sch) then Some v else None
          | _ => None
          end
      | JoiNumber =>
          match coerce_number v with
          | Some q =>
              if safe_number q && forallb (number_rule q) (joi_rules sch)
              then Some (JNum q) else None
          | None => None
          end
      end
  end.

Fixpoint schema_key (k : string) (schema : ObjectSchema) : option JoiSchema :=
  match schema with
  | [] => None
  | (k', sch) :: rest => if String.eqb k k' then Some sch else schema_key k rest
  end.

(** Every key of the object must be a key of the schema and carry a valid
    value. *)
Fixpoint validate_fields `{JoiLib} (schema : ObjectSchema) (fields : list (string * Json))
  : option (list (string * Json)) :=
  match fields with
  | [] => Some []
  | (k, v) :: rest =>
      match schema_key k schema with
      | None => None
      | Some sch =>
          match validate_value sch v, validate_fields schema rest with
          | Some v', Some rest' => Some ((k, v') :: rest')
          | _, _ => None
          end
      end
  end.

Definition required_present (schema : ObjectSchema) (fields : list (string * Json)) : bool :=
  forallb (fun ks : string * JoiSchema =>
             if joi_required ks.2 then bool_decide (is_Some (assoc ks.1 fields)) else true)
          schema.

(** [schema.validate(value)]: the converted object, or [None] on error. *)
Definition schema_validate `{JoiLib} (schema : ObjectSchema) (value : Json) : option Json :=
  match value with
  | JObj fields =>
      if required_present schema fields
      then JObj <$> validate_fields schema fields
      else None
  | _ => None
  end.

(* ===================================================================== *)
(** ** middleware/validationMiddleware.js                                 *)
(* ===================================================================== *)

Inductive Property := body_ | query_ | params_.

Definition req_property (p : Property) (req : Request) : Json :=
  match p with
  | body_ => req_body req
  | query_ => req_query req
  | params_ => req_params req
  end.

Definition set_property (p : Property) (req : Request) (v : Json) : Request :=
  {| req_method := req_method req; req_path := req_path req;
     req_originalUrl := req_originalUrl req;
     req_authorization := req_authorization req;
     req_body := match p with body_ => v | _ => req_body req end;
     req_query := match p with query_ => v | _ => req_query req end;
     req_params := match p with params_ => v | _ => req_params req end;
     req_user := req_user req |}.

(** Modelled from the spec: the [validate(schema, property = 'body')]
    middleware, whose file is not among the sources (the routes that call
    it and the tests of its answers are).  It checks the named part of the
    request against the schema, with Joi's default options, before the
    handler runs; a violation is answered with 400 "Validation failed" and
    the handler is not called; otherwise the handler sees the value as Joi
    converted it. *)
Definition validate `{JoiLib} (schema : ObjectSchema) (property : Property) (req : Request) : Outcome :=
  match schema_validate schema (req_property property req) with
  | None => Respond (json 400 (JObj [("error", JStr "Validation failed")]))
  | Some value => Next (set_property property req value)
  end.

(* ===================================================================== *)
(** ** prisma/schema.prisma and the Prisma client                         *)
(* ===================================================================== *)

(** The columns of [model User] and [model Trade] other than the primary
    key; a table maps the [@id] to the remaining columns, so that a key
    identifies at most one row. *)
Record UserRow := {
  u_email : string;
  u_password : string
}.

Record TradeRow := {
  t_type : string;
  t_userId : Z;
  t_symbol : string;
  t_shares : Z;
  t_price : Q;
  t_timestamp : Z
}.

(** The database: both tables and their [autoincrement()] counters. *)
Record Db := {
  users : gmap Z UserRow;
  trades : gmap Z TradeRow;
  next_user_id : Z;
  next_trade_id : Z
}.

(** A record as the client returns it: the id and the other columns. *)
Definition User : Type := Z * UserRow.
Definition Trade : Type := Z * TradeRow.

Definition PrismaKnownRequestError (code message : string) : JsError :=
  mkError "PrismaClientKnownRequestError" message (Some code).
Definition PrismaValidationError : JsError :=
  mkError "PrismaClientValidationError" "Invalid invocation" None.

(** [prisma.user.findUnique({ where: { email } })] *)
Definition user_findUnique_email (db : Db) (e : string) : option User :=
  snd <$> list_find (fun u : User => u_email u.2 = e) (map_to_list (users db)).

(** [prisma.user.findUnique({ where: { id } })] *)
Definition user_findUnique_id (db : Db) (i : Z) : option User :=
  (fun row => (i, row)) <$> users db !! i.

(** [prisma.user.create]: [email] is [@unique]; a second row with the same
    e-mail is refused with P2002 and nothing is written. *)
Definition user_create (db : Db) (row : UserRow) : Result (User * Db) :=
  match user_findUnique_email db (u_email row) with
  | Some _ =>
      Throw (PrismaKnownRequestError "P2002" "Unique constraint failed on the fields: (email)")
  | None =>
      let i := next_user_id db in
      Ok ((i, row),
          {| users := <[i := row]> (users db); trades := trades db;
             next_user_id := i + 1; next_trade_id := next_trade_id db |})
  end.

(** [prisma.trade.create]: [userId] references [User.id]
    ([user User @relation(fields: [userId], references: [id])], a foreign
    key of the MySQL table); a row whose owner does not exist is refused
    with P2003 and nothing is written. *)
Definition trade_create (db : Db) (row : TradeRow) : Result (Trade * Db) :=
  match users db !! t_userId row with
  | None =>
      Throw (PrismaKnownRequestError "P2003" "Foreign key constraint failed on the field: user_id")
  | Some _ =>
      let i := next_trade_id db in
      Ok ((i, row),
          {| users := users db; trades := <[i := row]> (trades db);
             next_user_id := next_user_id db; next_trade_id := i + 1 |})
  end.

(** The [where] object of the list query. *)
Record Where := {
  where_type : option string;
  where_userId : option Z
}.

Definition matches (w : Where) (t : Trade) : Prop :=
  from_option (fun ty => t_type t.2 = ty) True (where_type w) /\
  from_option (fun u => t_userId t.2 = u) True (where_userId w).

#[global] Instance matches_dec w t : Decision (matches w t).
Proof.
  unfold matches.
  destruct (where_type w), (where_userId w); simpl; apply _.
Defined.

(** [orderBy: { id: 'asc' }] *)
Definition by_id : relation Trade := fun a b => a.1 <= b.1.

#[global] Instance by_id_dec a b : Decision (by_id a b).
Proof. unfold by_id. apply _. Defined.

(** [prisma.trade.findMany({ where, orderBy: { id: 'asc' } })] *)
Definition trade_findMany (db : Db) (w : Where) : list Trade :=
  merge_sort by_id (filter (matches w) (map_to_list (trades db))).

(** [prisma.trade.findUnique({ where: { id } })] *)
Definition trade_findUnique (db : Db) (i : Z) : option Trade :=
  (fun row => (i, row)) <$> trades db !! i.

(* ===================================================================== *)
(** ** routes/tradesRoutes.js                                             *)
(* ===================================================================== *)

(** The response format of a trade ([timestamp.getTime()] is the stored
    instant in milliseconds). *)
Definition responseTradeData (trade : Trade) : Json :=
  JObj [("id", JInt trade.1);
        ("type", JStr (t_type trade.2));
        ("user_id", JInt (t_userId trade.2));
        ("symbol", JStr (t_symbol trade.2));
        ("shares", JInt (t_shares trade.2));
        ("price", JNum (t_price trade.2));
        ("timestamp", JInt (t_timestamp trade.2))].

(** The arguments of a Prisma call are checked against the column types
    before the query is sent. *)
Definition prisma_String (v : option Json) : Result string :=
  match v with
  | Some (JStr s) => Ok s
  | _ => Throw PrismaValidationError
  end.

Definition prisma_Int (v : option Json) : Result Z :=
  match v with
  | Some (JNum q) => if is_integer q then Ok (Qtrunc q) else Throw PrismaValidationError
  | _ => Throw PrismaValidationError
  end.

Definition prisma_Float (v : option Q) : Result Q :=
  match v with
  | Some q => Ok q
  | None => Throw PrismaValidationError
  end.

(** An [Int] argument computed by [parseInt] ([None] is NaN). *)
Definition prisma_Int_parsed (v : option Z) : Result Z :=
  match v with
  | Some n => Ok n
  | None => Throw PrismaValidationError
  end.

(** [symbol.toUpperCase()] *)
Definition call_toUpperCase `{JsGlobals} (v : option Json) : Result string :=
  match v with
  | Some (JStr s) => Ok (toUpperCase s)
  | None => Throw (TypeError "Cannot read properties of undefined (reading 'toUpperCase')")
  | Some JNull => Throw (TypeError "Cannot read properties of null (reading 'toUpperCase')")
  | Some _ => Throw (TypeError "symbol.toUpperCase is not a function")
  end.

(** A route handler and the state of the database after it. *)
Definition handler (db : Db) (r : Result (Response * Db)) : Outcome * Db :=
  match r with
  | Ok (res, db') => (Respond res, db')
  | Throw error => (NextErr error, db)
  end.

(** [router.post('/')], the handler behind [validate(createTradeSchema)]. *)
Definition post_trade `{JsGlobals} (now : Z) (db : Db) (req : Request) : Outcome * Db :=
  handler db (
    let type := get "type" (req_body req) in
    let user_id := get "user_id" (req_body req) in
    let symbol := get "symbol" (req_body req) in
    let shares := get "shares" (req_body req) in
    let price := get "price" (req_body req) in
    symbol' ← call_toUpperCase symbol;
    type' ← prisma_String type;
    userId' ← prisma_Int user_id;
    shares' ← prisma_Int shares;
    price' ← prisma_Float (parseFloat price);
    '(trade, db') ← trade_create db
       {| t_type := type'; t_userId := userId'; t_symbol := symbol';
          t_shares := shares'; t_price := price'; t_timestamp := now |};
    Ok (json 201 (responseTradeData trade), db')).

(** [router.get('/')], behind [validate(tradeQuerySchema, 'query')]. *)
Definition get_trades `{JsGlobals} (db : Db) (req : Request) : Outcome * Db :=
  handler db (
    let type := get "type" (req_query req) in
    let user_id := get "user_id" (req_query req) in
    where_type' ← (if truthy type
                   then s ← prisma_String type; Ok (Some s)
                   else Ok None);
    where_userId' ← (if truthy user_id
                     then n ← prisma_Int_parsed (parseInt user_id); Ok (Some n)
                     else Ok None);
    let trades := trade_findMany db {| where_type := where_type'; where_userId := where_userId' |} in
    Ok (json 200 (JArr (responseTradeData <$> trades)), db)).

(** [router.get('/:id')], behind [validate(tradeIdSchema, 'params')]. *)
Definition get_trade `{JsGlobals} (db : Db) (req : Request) : Outcome * Db :=
  handler db (
    let id := get "id" (req_params req) in
    id' ← prisma_Int_parsed (parseInt id);
    match trade_findUnique db id' with
    | None => Ok (json 404 (JObj [("error", JStr "Trade not found")]), db)
    | Some trade => Ok (json 200 (responseTradeData trade), db)
    end).

(** Trade modification/deletion is not allowed per specification. *)
Definition put_trade (db : Db) (req : Request) : Outcome * Db :=
  (Respond (json 405 (JObj [("error", JStr "Method not allowed");
                            ("message", JStr "Trade modification is not permitted")])), db).

Definition patch_trade (db : Db) (req : Request) : Outcome * Db :=
  (Respond (json 405 (JObj [("error", JStr "Method not allowed");
                            ("message", JStr "Trade modification is not permitted")])), db).

Definition delete_trade (db : Db) (req : Request) : Outcome * Db :=
  (Respond (json 405 (JObj [("error", JStr "Method not allowed");
                            ("message", JStr "Trade deletion is not permitted")])), db).

(** One middleware after another: the second runs only when the first
    calls [next()]. *)
Definition and_then (o : Outcome) (db : Db) (k : Request -> Outcome * Db) : Outcome * Db :=
  match o with
  | Next req => k req
  | _ => (o, db)
  end.

(** The router: [router.use(authenticateToken)], then the routes.  A path
    [/] has no segment, a path [/:id] has one. *)
Definition tradesRoutes `{JsonWebToken, JoiLib, JsGlobals}
  (env : Env) (now : Z) (db : Db) (req : Request) : Outcome * Db :=
  and_then (authenticateToken env now req) db (fun req =>
    match req_method req, req_path req with
    | POST, [] => and_then (validate createTradeSchema body_ req) db (post_trade now db)
    | GET, [] => and_then (validate tradeQuerySchema query_ req) db (get_trades db)
    | GET, [id] =>
        let req := set_property params_ req (JObj [("id", JStr id)]) in
        and_then (validate tradeIdSchema params_ req) db (get_trade db)
    | PUT, [id] => put_trade db req
    | PATCH, [id] => patch_trade db req
    | DELETE, [id] => delete_trade db req
    | _, _ => (Next req, db)
    end).

(* ===================================================================== *)
(** ** routes/authRoutes.js                                               *)
(* ===================================================================== *)

(** The [bcryptjs] library; the random salt of [bcrypt.hash] is an
    argument. *)
Class Bcrypt := {
  bcrypt_hash : string -> Z -> string -> string;
  bcrypt_compare : string -> string -> bool;
  bcrypt_compare_hash : forall password rounds salt,
    bcrypt_compare password (bcrypt_hash password rounds salt) = true
}.

(** Both functions refuse an argument that is not a string. *)
Definition bcrypt_string (v : option Json) : Result string :=
  match v with
  | Some (JStr s) => Ok s
  | _ => Throw (mkError "Error" "Illegal arguments" None)
  end.

Definition user_json (user : User) : Json :=
  JObj [("id", JInt user.1); ("email", JStr (u_email user.2))].

(** Signup, from the password hash on (the part after the existence
    check). *)
Definition signup_create `{JsonWebToken, Bcrypt}
  (env : Env) (now : Z) (salt : string) (db : Db) (req : Request) : Result (Response * Db) :=
  let email := get "email" (req_body req) in
  let password := get "password" (req_body req) in
  let saltRounds := 12 in
  password' ← bcrypt_string password;
  let hashedPassword := bcrypt_hash password' saltRounds salt in
  email' ← prisma_String email;
  '(user, db') ← user_create db {| u_email := email'; u_password := hashedPassword |};
  let accessToken :=
    generateAccessToken env now {| userId := user.1; email := Some (u_email user.2) |} in
  let refreshToken :=
    generateRefreshToken env now {| userId := user.1; email := None |} in
  Ok (json 201 (JObj [("message", JStr "User created successfully");
                      ("user", user_json user);
                      ("accessToken", JStr accessToken);
                      ("refreshToken", JStr refreshToken)]), db').

(** [router.post('/signup')], behind [validate(signupSchema)]. *)
Definition post_signup `{JsonWebToken, Bcrypt}
  (env : Env) (now : Z) (salt : string) (db : Db) (req : Request) : Outcome * Db :=
  handler db (
    let email := get "email" (req_body req) in
    email' ← prisma_String email;
    match user_findUnique_email db email' with
    | Some existingUser =>
        Ok (json 409 (JObj [("error", JStr "User with this email already exists")]), db)
    | None => signup_create env now salt db req
    end).

(** The handler is asynchronous: between its existence check
    ([await findUnique]) and its insertion ([await create]) another request
    can be served.  [post_signup_interleaved seen db] is the handler whose
    check read the database [seen] and whose insertion meets [db]; with
    [seen = db] it is [post_signup]. *)
Definition post_signup_interleaved `{JsonWebToken, Bcrypt}
  (env : Env) (now : Z) (salt : string) (seen db : Db) (req : Request) : Outcome * Db :=
  handler db (
    let email := get "email" (req_body req) in
    email' ← prisma_String email;
    match user_findUnique_email seen email' with
    | Some existingUser =>
        Ok (json 409 (JObj [("error", JStr "User with this email already exists")]), db)
    | None => signup_create env now salt db req
    end).

(** [router.post('/login')], behind [validate(loginSchema)]. *)
Definition post_login `{JsonWebToken, Bcrypt}
  (env : Env) (now : Z) (db : Db) (req : Request) : Outcome * Db :=
  handler db (
    let email := get "email" (req_body req) in
    let password := get "password" (req_body req) in
    email' ← prisma_String email;
    match user_findUnique_email db email' with
    | None => Ok (json 401 (JObj [("error", JStr "Invalid email or password")]), db)
    | Some user =>
        password' ← bcrypt_string password;
        let isPasswordValid := bcrypt_compare password' (u_password user.2) in
        if negb isPasswordValid then
          Ok (json 401 (JObj [("error", JStr "Invalid email or password")]), db)
        else
          let accessToken :=
            generateAccessToken env now {| userId := user.1; email := Some (u_email user.2) |} in
          let refreshToken :=
            generateRefreshToken env now {| userId := user.1; email := None |} in
          Ok (json 200 (JObj [("message", JStr "Login successful");
                              ("user", user_json user);
                              ("accessToken", JStr accessToken);
                              ("refreshToken", JStr refreshToken)]), db)
    end).

(** [jwt.verify] refuses a token that is not a string. *)
Definition verifyRefreshToken_value `{JsonWebToken} (env : Env) (now : Z) (v : option Json)
  : Result Decoded :=
  match v with
  | Some (JStr token) => verifyRefreshToken env now token
  | _ => Throw (JsonWebTokenError "jwt must be a string")
  end.

(** [router.post('/token/refresh')] *)
Definition post_token_refresh `{JsonWebToken}
  (env : Env) (now : Z) (db : Db) (req : Request) : Outcome * Db :=
  let refreshToken := get "refreshToken" (req_body req) in
  if negb (truthy refreshToken) then
    (Respond (json 401 (JObj [("error", JStr "Refresh token required")])), db)
  else
    match
      decoded ← verifyRefreshToken_value env now refreshToken;
      match user_findUnique_id db (userId (claims decoded)) with
      | None => Ok (json 401 (JObj [("error", JStr "User not found")]))
      | Some user =>
          let newAccessToken :=
            generateAccessToken env now {| userId := user.1; email := Some (u_email user.2) |} in
          Ok (json 200 (JObj [("accessToken", JStr newAccessToken)]))
      end
    with
    | Ok res => (Respond res, db)
    | Throw error =>
        if String.eqb (err_name error) "TokenExpiredError" then
          (Respond (json 401 (JObj [("error", JStr "Refresh token expired")])), db)
        else if String.eqb (err_name error) "JsonWebTokenError" then
          (Respond (json 401 (JObj [("error", JStr "Invalid refresh token")])), db)
        else (NextErr error, db)
    end.

Definition authRoutes `{JsonWebToken, Bcrypt, JoiLib}
  (env : Env) (now : Z) (salt : string) (db : Db) (req : Request) : Outcome * Db :=
  match req_method req, req_path req with
  | POST, ["signup"] => and_then (validate signupSchema body_ req) db (post_signup env now salt db)
  | POST, ["login"] => and_then (validate loginSchema body_ req) db (post_login env now db)
  | POST, ["token"; "refresh"] => post_token_refresh env now db req
  | _, _ => (Next req, db)
  end.

(* ===================================================================== *)
(** ** server.js                                                          *)
(* ===================================================================== *)

(** [app.use('/', authRoutes)] and [app.use('/trades', tradeRoutes)], each
    followed by the catch-all 404 and the global error handler. *)
Definition auth_api `{JsonWebToken, Bcrypt, JoiLib}
  (env : Env) (now : Z) (salt : string) (db : Db) (req : Request) : Response * Db :=
  let '(o, db') := authRoutes env now salt db req in (finish env o, db').

(** POST /signup when another request is served between the existence
    check and the insertion (see [post_signup_interleaved]). *)
Definition signup_interleaved `{JsonWebToken, Bcrypt, JoiLib}
  (env : Env) (now : Z) (salt : string) (seen db : Db) (req : Request) : Response * Db :=
  let '(o, db') :=
    and_then (validate signupSchema body_ req) db
             (post_signup_interleaved env now salt seen db) in
  (finish env o, db').

Definition trades_api `{JsonWebToken, JoiLib, JsGlobals}
  (env : Env) (now : Z) (db : Db) (req : Request) : Response * Db :=
  let '(o, db') := tradesRoutes env now db req in (finish env o, db').

(* ===================================================================== *)
(** ** A reference implementation of the library interfaces               *)
(* ===================================================================== *)

(** A token is the text of its claims followed by the secret: the
    simplest scheme that satisfies the laws of [JsonWebToken].  It serves
    to run the service on concrete requests. *)
Module Reference.

Fixpoint enc_pos (p : positive) : string :=
  match p with
  | xH => "."
  | xO p => String "0" (enc_pos p)
  | xI p => String "1" (enc_pos p)
  end.

Definition enc_Z (z : Z) : string :=
  match z with
  | Z0 => "z"
  | Zpos p => String "+" (enc_pos p)
  | Zneg p => String "-" (enc_pos p)
  end.

Definition enc_string (s : string) : string :=
  enc_Z (Z.of_nat (String.length s)) +:+ s.

Definition enc_option (o : option string) : string :=
  match o with
  | None => "n"
  | Some s => String "s" (enc_string s)
  end.

Fixpoint dec_pos (s : string) : option (positive * string) :=
  match s with
  | String "." rest => Some (xH, rest)
  | String "0" rest => prod_map xO id <$> dec_pos rest
  | String "1" rest => prod_map xI id <$> dec_pos rest
  | _ => None
  end.

Definition dec_Z (s : string) : option (Z * string) :=
  match s with
  | String "z" rest => Some (0, rest)
  | String "+" rest => prod_map Zpos id <$> dec_pos rest
  | String "-" rest => prod_map Zneg id <$> dec_pos rest
  | _ => None
  end.

Fixpoint cut (n : nat) (s : string) : option (string * string) :=
  match n, s with
  | O, _ => Some (EmptyString, s)
  | S n, String c rest => prod_map (String c) id <$> cut n rest
  | S _, EmptyString => None
  end.

Definition dec_string (s : string) : option (string * string) :=
  '(n, rest) ← dec_Z s; cut (Z.to_nat n) rest.

Definition dec_option (s : string) : option (option string * string) :=
  match s with
  | String "n" rest => Some (None, rest)
  | String "s" rest => prod_map Some id <$> dec_string rest
  | _ => None
  end.

Definition sign (p : Payload) (secret : string) (expiresIn t : Z) : string :=
  enc_Z (userId p) +:+ enc_option (email p) +:+ enc_Z t +:+ enc_Z (t + expiresIn) +:+ secret.

Definition parse (token : string) : option (Decoded * string) :=
  '(u, rest) ← dec_Z token;
  '(e, rest) ← dec_option rest;
  '(i, rest) ← dec_Z rest;
  '(x, rest) ← dec_Z rest;
  Some ({| claims := {| userId := u; email := e |}; iat := i; exp := x |}, rest).

Definition verify (token secret : string) (t : Z) : Result Decoded :=
  match parse token with
  | None => Throw (JsonWebTokenError "jwt malformed")
  | Some (d, signature) =>
      if negb (String.eqb signature secret) then Throw (JsonWebTokenError "invalid signature")
      else if exp d <=? t then Throw TokenExpiredError
      else Ok d
  end.

Lemma dec_pos_enc p rest : dec_pos (enc_pos p +:+ rest) = Some (p, rest).
Proof.
  induction p as [p IH | p IH |]; simpl; [rewrite IH | rewrite IH |]; reflexivity.
Qed.

Lemma dec_Z_enc z rest : dec_Z (enc_Z z +:+ rest) = Some (z, rest).
Proof.
  destruct z as [| p | p]; simpl; [reflexivity | |]; rewrite dec_pos_enc; reflexivity.
Qed.

Lemma cut_app s rest : cut (String.length s) (s +:+ rest) = Some (s, rest).
Proof.
  induction s as [| c s IH]; simpl; [reflexivity |]. rewrite IH. reflexivity.
Qed.

Lemma string_app_assoc (a b c : string) : (a +:+ b) +:+ c = a +:+ (b +:+ c).
Proof.
  induction a as [| x a IH]; [reflexivity |].
  exact (f_equal (String x) IH).
Qed.

Lemma dec_string_enc s rest : dec_string (enc_string s +:+ rest) = Some (s, rest).
Proof.
  unfold dec_string, enc_string.
  rewrite string_app_assoc, dec_Z_enc. simpl.
  rewrite Nat2Z.id. apply cut_app.
Qed.

Lemma dec_option_enc o rest : dec_option (enc_option o +:+ rest) = Some (o, rest).
Proof.
  destruct o as [s |]; simpl; [| reflexivity].
  rewrite dec_string_enc. reflexivity.
Qed.

Lemma parse_sign p secret d t :
  parse (sign p secret d t) = Some ({| claims := p; iat := t; exp := t + d |}, secret).
Proof.
  unfold parse, sign.
  rewrite dec_Z_enc. simpl.
  rewrite dec_option_enc. simpl.
  rewrite dec_Z_enc. simpl.
  rewrite dec_Z_enc. simpl.
  destruct p; reflexivity.
Qed.

#[export] Instance jwt : JsonWebToken.
Proof.
  refine {| jwt_sign := sign; jwt_verify := verify |}.
  - intros p s d t t' Hlt. unfold verify. rewrite parse_sign.
    rewrite String.eqb_refl. simpl.
    destruct (Z.leb_spec (t + d) t'); [lia | reflexivity].
  - intros p s d t t' Hle. unfold verify. rewrite parse_sign.
    rewrite String.eqb_refl. simpl.
    destruct (Z.leb_spec (t + d) t'); [reflexivity | lia].
  - intros p s s' d t t' Hne. unfold verify. rewrite parse_sign.
    destruct (String.eqb_spec s s'); [contradiction | reflexivity].
Defined.

#[export] Instance bcrypt : Bcrypt.
Proof.
  refine {| bcrypt_hash := fun password rounds salt => "$2a$" +:+ password;
            bcrypt_compare := fun password hash => String.eqb ("$2a$" +:+ password) hash |}.
  intros. apply String.eqb_refl.
Defined.

(** Decimal numerals. *)
Fixpoint digits (s : string) (acc : Z) : option Z :=
  match s with
  | EmptyString => Some acc
  | String c rest =>
      let n := Z.of_nat (nat_of_ascii c) in
      if (48 <=? n) && (n <=? 57) then digits rest (10 * acc + (n - 48)) else None
  end.

Definition numeral (s : string) : option Z :=
  match s with
  | EmptyString => None
  | _ => digits s 0
  end.

Fixpoint has_at (s : string) : bool :=
  match s with
  | EmptyString => false
  | String c rest => Ascii.eqb c "@" || has_at rest
  end.

#[export] Instance joi : JoiLib :=
  {| joi_is_email := has_at;
     joi_to_number := fun s => inject_Z <$> numeral s |}.

(** Case mapping of the ASCII letters; other bytes are kept. *)
Fixpoint upper_bytes (s : string) : string :=
  match s with
  | EmptyString => EmptyString
  | String c rest => String (upper_ascii c) (upper_bytes rest)
  end.

#[export] Instance globals : JsGlobals :=
  {| parseFloat_string := fun s => inject_Z <$> numeral s;
     parseInt_string := numeral;
     toUpperCase := upper_bytes;
     toUpperCase_empty := eq_refl;
     toUpperCase_ascii := fun c s _ => eq_refl |}.

End Reference.

(* ===================================================================== *)
(** ** Vocabulary of the properties                                       *)
(* ===================================================================== *)

(** The conditions the properties speak about (an address without an
    account, a body that breaks a constraint, ...), stated on requests and
    on the tables; the theorems relate them to what the code does. *)

Fixpoint has_space (s : string) : bool :=
  match s with
  | EmptyString => false
  | String c rest => Ascii.eqb c " " || has_space rest
  end.

(** No account / some account has this e-mail address. *)
Definition no_account (db : Db) (e : string) : Prop :=
  forall i row, users db !! i = Some row -> u_email row <> e.

Definition has_account (db : Db) (e : string) : Prop :=
  exists i row, users db !! i = Some row /\ u_email row = e.

(** The password matches no account with this e-mail address. *)
Definition wrong_password `{Bcrypt} (db : Db) (e p : string) : Prop :=
  forall i row, users db !! i = Some row -> u_email row = e ->
                bcrypt_compare p (u_password row) = false.

(** A request to [route] whose body passes [schema]. *)
Definition valid_post `{JoiLib} (route : list string) (schema : ObjectSchema) (req : Request) : Prop :=
  req_method req = POST /\ req_path req = route /\
  is_Some (schema_validate schema (req_body req)).


(** A request to POST /token/refresh that carries the string [token]. *)
Definition refresh_request (req : Request) (token : string) : Prop :=
  req_method req = POST /\ req_path req = ["token"; "refresh"] /\
  get "refreshToken" (req_body req) = Some (JStr token) /\ token <> "".

(** The body of POST /trades read as a trade; its numbers are read the way
    Joi reads them (a numeric string counts as its number). *)
Record TradeInput := {
  in_type : string;
  in_user_id : Q;
  in_symbol : string;
  in_shares : Q;
  in_price : Q
}.

Definition reads `{JoiLib} (value : Json) (i : TradeInput) : Prop :=
  get "type" value = Some (JStr (in_type i)) /\
  get "user_id" value ≫= coerce_number = Some (in_user_id i) /\
  get "symbol" value = Some (JStr (in_symbol i)) /\
  get "shares" value ≫= coerce_number = Some (in_shares i) /\
  get "price" value ≫= coerce_number = Some (in_price i).

(** The constraints on a trade: the direction is "buy" or "sell", the
    owner a positive integer, the symbol not empty, the share count an
    integer from 1 to 100, the price positive. *)
Definition within_rules (i : TradeInput) : Prop :=
  (in_type i = "buy" \/ in_type i = "sell") /\
  (is_integer (in_user_id i) = true /\ (0 < in_user_id i)%Q) /\
  in_symbol i <> "" /\
  (is_integer (in_shares i) = true /\ (1 <= in_shares i)%Q /\ (in_shares i <= 100)%Q) /\
  (0 < in_price i)%Q.

(** A body that breaks one of the constraints, or lacks a required
    field. *)
Definition violates `{JoiLib} (value : Json) : Prop :=
  (get "type" value <> Some (JStr "buy") /\ get "type" value <> Some (JStr "sell")) \/
  (forall n, get "shares" value ≫= coerce_number = Some n ->
             ~ (is_integer n = true /\ (1 <= n)%Q /\ (n <= 100)%Q)) \/
  (forall pr, get "price" value ≫= coerce_number = Some pr -> ~ (0 < pr)%Q) \/
  (forall u, get "user_id" value ≫= coerce_number = Some u ->
             ~ (is_integer u = true /\ (0 < u)%Q)) \/
  (forall sym, get "symbol" value = Some (JStr sym) -> sym = "") \/
  (exists k, k ∈ ["type"; "user_id"; "symbol"; "shares"; "price"] /\ get k value = None).

(** Text of ASCII characters only. *)
Definition ascii_text (s : string) : Prop :=
  Forall (fun c => (nat_of_ascii c < 128)%nat) (list_ascii_of_string s).

(** [u] is [s] with every letter a to z replaced by its capital (the
    character 32 places before it) and every other character kept. *)
Definition capitals (s u : string) : Prop :=
  Forall2 (fun c d =>
             nat_of_ascii d =
             if ((97 <=? nat_of_ascii c)%nat && (nat_of_ascii c <=? 122)%nat)%bool
             then (nat_of_ascii c - 32)%nat else nat_of_ascii c)
          (list_ascii_of_string s) (list_ascii_of_string u).

(** The record a valid body is stored as at time [now]. *)
Definition trade_of `{JsGlobals} (now : Z) (i : TradeInput) : TradeRow :=
  {| t_type := in_type i; t_userId := Qtrunc (in_user_id i);
     t_symbol := toUpperCase (in_symbol i); t_shares := Qtrunc (in_shares i);
     t_price := in_price i; t_timestamp := now |}.

(** The database after the insertion of a trade. *)
Definition with_trade (db : Db) (row : TradeRow) : Db :=
  {| users := users db; trades := <[next_trade_id db := row]> (trades db);
     next_user_id := next_user_id db; next_trade_id := next_trade_id db + 1 |}.

(** The filter a query string asks for. *)
Definition query_where `{JoiLib} (query : Json) : Where :=
  {| where_type := match get "type" query with
                   | Some (JStr ty) => Some ty
                   | _ => None
                   end;
     where_userId := Qtrunc <$> (get "user_id" query ≫= coerce_number) |}.

(** Strictly ascending ids. *)
Definition ascending : relation Trade := fun a b => a.1 < b.1.

(** The database after the insertion of an account. *)
Definition with_user (db : Db) (row : UserRow) : Db :=
  {| users := <[next_user_id db := row]> (users db); trades := trades db;
     next_user_id := next_user_id db + 1; next_trade_id := next_trade_id db |}.

(** What the schema and the counters promise of the tables: ids lie below
    the [autoincrement()] counters, the owner of every trade is an account
    ([@relation]), and no two accounts share an e-mail address
    ([@unique]). *)
Record db_ok (db : Db) : Prop := {
  users_below : forall i row, users db !! i = Some row -> i < next_user_id db;
  trades_below : forall i row, trades db !! i = Some row -> i < next_trade_id db;
  owners_exist : forall i row, trades db !! i = Some row ->
                               is_Some (users db !! t_userId row);
  emails_unique : forall i j row row',
      users db !! i = Some row -> users db !! j = Some row' ->
      u_email row = u_email row' -> i = j
}.

(** An error the handler knows nothing about: it carries no status of
    its own, is none of the two Prisma codes and none of the two JWT
    errors. *)
Definition unexpected (e : JsError) : Prop :=
  err_status e = None /\
  err_code e <> Some "P2002" /\ err_code e <> Some "P2025" /\
  err_name e <> "JsonWebTokenError" /\ err_name e <> "TokenExpiredError".

(** The database of a new installation, and the requests a client can
    send: to the account routes (with the salt drawn for the request) or
    to the trade routes, at a given time. *)
Definition initial : Db :=
  {| users := ∅; trades := ∅; next_user_id := 1; next_trade_id := 1 |}.

Inductive Call :=
| to_auth (now : Z) (salt : string) (req : Request)
| to_trades (now : Z) (req : Request).

Definition serve `{JsonWebToken, Bcrypt, JoiLib, JsGlobals}
  (env : Env) (db : Db) (c : Call) : Response * Db :=
  match c with
  | to_auth now salt req => auth_api env now salt db req
  | to_trades now req => trades_api env now db req
  end.

(** The database after a sequence of requests, served one after the
    other. *)
Definition run `{JsonWebToken, Bcrypt, JoiLib, JsGlobals}
  (env : Env) (calls : list Call) (db : Db) : Db :=
  foldl (fun db c => (serve env db c).2) db calls.

(* ===================================================================== *)
(** ** A concrete deployment                                              *)
(* ===================================================================== *)

(** One environment, one account and a few requests, on the reference
    implementation of the libraries. *)
Module Scenario.
Import Reference.

Definition env : Env :=
  {| JWT_ACCESS_SECRET := "access-secret"; JWT_REFRESH_SECRET := "refresh-secret";
     JWT_ACCESS_EXPIRY := None; JWT_REFRESH_EXPIRY := None; NODE_ENV := None |}.

Definition empty : Db :=
  {| users := ∅; trades := ∅; next_user_id := 1; next_trade_id := 1 |}.

Definition request (m : Method) (path : list string) (authorization : option string)
  (b q : Json) : Request :=
  {| req_method := m; req_path := path; req_originalUrl := "/";
     req_authorization := authorization; req_body := b; req_query := q;
     req_params := JObj []; req_user := None |}.

(** Three times the letter e with an acute accent (U+00E9, the bytes C3
    A9): six bytes, three UTF-16 units. *)
Definition three_accents : string :=
  String "195" (String "169" (String "195" (String "169" (String "195" (String "169" ""))))).

(** signup(email = "a@b.com", password = "secret1") at time 5000 ms *)
Definition signup : Request :=
  request POST ["signup"] None
    (JObj [("email", JStr "a@b.com"); ("password", JStr "secret1")]) (JObj []).

Definition alice : UserRow := {| u_email := "a@b.com"; u_password := "$2a$secret1" |}.

Definition db1 : Db :=
  {| users := <[1 := alice]> ∅; trades := ∅; next_user_id := 2; next_trade_id := 1 |}.

Definition accessToken : string :=
  generateAccessToken env 5000 {| userId := 1; email := Some "a@b.com" |}.
Definition refreshToken : string :=
  generateRefreshToken env 5000 {| userId := 1; email := None |}.

Definition bearer : option string := Some ("Bearer " +:+ accessToken).



Definition trade_body (type : string) (user_id shares : Z) : Json :=
  JObj [("type", JStr type); ("user_id", JInt user_id); ("symbol", JStr "aapl");
        ("shares", JInt shares); ("price", JNum (601 # 4))].

(** A trade of that account, and the database holding it. *)
Definition buy : TradeRow :=
  {| t_type := "buy"; t_userId := 1; t_symbol := "AAPL"; t_shares := 50;
     t_price := 601 # 4; t_timestamp := 6000 |}.

Definition db2 : Db :=
  {| users := <[1 := alice]> ∅; trades := <[1 := buy]> ∅;
     next_user_id := 2; next_trade_id := 2 |}.

(** A second account. *)
Definition bob : UserRow := {| u_email := "b@b.com"; u_password := "$2a$secret2" |}.

Definition db_two : Db :=
  {| users := <[2 := bob]> (<[1 := alice]> ∅); trades := ∅;
     next_user_id := 3; next_trade_id := 1 |}.

(** The gate and the two routers of this deployment. *)
Definition gate : Z -> Request -> Outcome :=
  @authenticateToken Reference.jwt env.
Definition auth : Z -> string -> Db -> Request -> Response * Db :=
  @auth_api Reference.jwt Reference.bcrypt Reference.joi env.
Definition trades_ : Z -> Db -> Request -> Response * Db :=
  @trades_api Reference.jwt Reference.joi Reference.globals env.

End Scenario.

(* ===================================================================== *)
(** * Properties                                                          *)
(* ===================================================================== *)

(** ** Numbers *)

Lemma is_integer_inject_Z z : is_integer (inject_Z z) = true.
Proof. unfold is_integer. simpl. rewrite Z.mod_1_r. reflexivity. Qed.

Lemma Qtrunc_inject_Z z : Qtrunc (inject_Z z) = z.
Proof. unfold Qtrunc. simpl. apply Z.quot_1_r. Qed.

Lemma Qltb_inject_Z a b : Qltb (inject_Z a) (inject_Z b) = (a <? b).
Proof. unfold Qltb. simpl. rewrite !Z.mul_1_r. reflexivity. Qed.

Lemma Qleb_inject_Z a b : Qleb (inject_Z a) (inject_Z b) = (a <=? b).
Proof. unfold Qleb. simpl. rewrite !Z.mul_1_r. reflexivity. Qed.

Lemma Qltb_lt a b : Qltb a b = true <-> (a < b)%Q.
Proof. unfold Qltb, Qlt. apply Z.ltb_lt. Qed.

Lemma Qleb_le a b : Qleb a b = true <-> (a <= b)%Q.
Proof. unfold Qleb, Qle. apply Z.leb_le. Qed.

(** ** The header is cut at every space *)

Lemma split_no_space s : has_space s = false -> split " " s = [s].
Proof.
  induction s as [| c s IH]; simpl; [reflexivity |].
  intros Hs. apply orb_false_iff in Hs as [Hc Hs].
  rewrite Hc, (IH Hs). reflexivity.
Qed.

Lemma split_first_field a b :
  has_space a = false -> split " " (a +:+ String " " b) = a :: split " " b.
Proof.
  induction a as [| c a IH]; intros Ha.
  - reflexivity.
  - simpl in Ha. apply orb_false_iff in Ha as [Hc Ha].
    change (String c a +:+ String " " b) with (String c (a +:+ String " " b)).
    simpl. rewrite Hc, (IH Ha). reflexivity.
Qed.

Lemma bearerToken_second_field scheme token :
  has_space scheme = false -> has_space token = false ->
  bearerToken (Some (scheme +:+ String " " token)) = Some token.
Proof.
  intros Hs Ht. unfold bearerToken.
  assert (Hsplit : split " " (scheme +:+ String " " token) !! 1%nat = Some token).
  { rewrite (split_first_field _ _ Hs), (split_no_space _ Ht). reflexivity. }
  destruct scheme; exact Hsplit.
Qed.

(** ** What validation lets through *)

Section Validation.
Context `{JoiLib}.

Lemma validate_fields_assoc schema fields fields' k :
  validate_fields schema fields = Some fields' ->
  match assoc k fields with
  | None => assoc k fields' = None
  | Some x => exists sch x',
      schema_key k schema = Some sch /\ validate_value sch x = Some x' /\
      assoc k fields' = Some x'
  end.
Proof.
  revert fields'. induction fields as [| [k0 x0] fields IH]; intros fields' Hv.
  - simpl in Hv. injection Hv as <-. reflexivity.
  - simpl in Hv.
    destruct (schema_key k0 schema) as [sch0 |] eqn:Hk0; [| discriminate].
    destruct (validate_value sch0 x0) as [x0' |] eqn:Hx0; [| discriminate].
    destruct (validate_fields schema fields) as [rest' |] eqn:Hrest; [| discriminate].
    injection Hv as <-. simpl.
    destruct (String.eqb_spec k k0) as [-> | Hne].
    + exists sch0, x0'. auto.
    + apply IH. reflexivity.
Qed.

Lemma required_present_assoc schema fields k sch :
  required_present schema fields = true ->
  schema_key k schema = Some sch -> joi_required sch = true ->
  is_Some (assoc k fields).
Proof.
  unfold required_present. induction schema as [| [k0 sch0] schema IH]; simpl.
  - discriminate.
  - intros Hall Hk Hreq. apply andb_true_iff in Hall as [Hhd Htl].
    destruct (String.eqb_spec k k0) as [-> | Hne].
    + injection Hk as ->. rewrite Hreq in Hhd.
      apply bool_decide_eq_true in Hhd. exact Hhd.
    + apply IH; assumption.
Qed.

(** A key of a validated object: its value was accepted by the schema of
    that key, and the handler reads the converted value. *)
Lemma schema_validate_get schema value value' k :
  schema_validate schema value = Some value' ->
  match get k value with
  | None => get k value' = None
  | Some x => exists sch x',
      schema_key k schema = Some sch /\ validate_value sch x = Some x' /\
      get k value' = Some x'
  end.
Proof.
  unfold schema_validate. destruct value as [| | | | | fields]; try discriminate.
  destruct (required_present schema fields); [| discriminate].
  destruct (validate_fields schema fields) as [fields' |] eqn:Hf; [| discriminate].
  simpl. intros [= <-]. simpl. apply validate_fields_assoc. exact Hf.
Qed.

Lemma schema_validate_required schema value value' k sch :
  schema_validate schema value = Some value' ->
  schema_key k schema = Some sch -> joi_required sch = true ->
  exists x x', get k value = Some x /\ validate_value sch x = Some x' /\
               get k value' = Some x'.
Proof.
  intros Hv Hk Hreq. pose proof (schema_validate_get _ _ _ k Hv) as Hget.
  unfold schema_validate in Hv. destruct value as [| | | | | fields]; try discriminate.
  destruct (required_present schema fields) eqn:Hp; [| discriminate].
  destruct (required_present_assoc _ _ _ _ Hp Hk Hreq) as [x Hx].
  simpl in Hget |- *. rewrite Hx in Hget |- *.
  destruct Hget as (sch' & x' & Hk' & Hx' & Hg).
  rewrite Hk in Hk'. injection Hk' as <-. eauto.
Qed.

(** The three shapes of key the schemas use. *)
Lemma validate_value_allowed sch vs x x' :
  joi_valid sch = Some vs -> validate_value sch x = Some x' ->
  exists s, x = JStr s /\ x' = JStr s /\ s ∈ vs.
Proof.
  unfold validate_value. intros ->.
  destruct x as [| | | s | |]; try discriminate.
  case_bool_decide; [| discriminate]. intros [= <-]. eauto.
Qed.

Lemma validate_value_string sch x x' :
  joi_valid sch = None -> joi_type sch = JoiString -> validate_value sch x = Some x' ->
  exists s, x = JStr s /\ x' = JStr s /\ s <> "" /\
            forallb (string_rule s) (joi_rules sch) = true.
Proof.
  unfold validate_value. intros -> ->.
  destruct x as [| | | s | |]; try discriminate.
  destruct (String.eqb_spec s "") as [| Hne]; [discriminate |].
  destruct (forallb (string_rule s) (joi_rules sch)) eqn:Hr; [| discriminate].
  intros [= <-]. eauto.
Qed.

Lemma validate_value_number sch x x' :
  joi_valid sch = None -> joi_type sch = JoiNumber -> validate_value sch x = Some x' ->
  exists q, coerce_number x = Some q /\ x' = JNum q /\ safe_number q = true /\
            forallb (number_rule q) (joi_rules sch) = true.
Proof.
  unfold validate_value. intros -> ->.
  destruct (coerce_number x) as [q |]; [| discriminate].
  destruct (safe_number q) eqn:Hs; [| discriminate].
  destruct (forallb (number_rule q) (joi_rules sch)) eqn:Hr; [| discriminate].
  simpl. intros [= <-]. eauto.
Qed.

(** A key of string type is handed on as it came. *)
Lemma schema_validate_string_key schema value value' k sch x :
  schema_validate schema value = Some value' ->
  schema_key k schema = Some sch -> joi_type sch = JoiString ->
  get k value = Some x ->
  get k value' = Some x /\ exists s, x = JStr s.
Proof.
  intros Hv Hk Hty Hx. pose proof (schema_validate_get _ _ _ k Hv) as Hget.
  rewrite Hx in Hget. destruct Hget as (sch' & x' & Hk' & Hx' & Hg).
  rewrite Hk in Hk'. injection Hk' as <-.
  destruct (joi_valid sch) as [vs |] eqn:Hvalid.
  - destruct (validate_value_allowed _ _ _ _ Hvalid Hx') as (s & -> & -> & _). eauto.
  - destruct (validate_value_string _ _ _ Hvalid Hty Hx') as (s & -> & -> & _). eauto.
Qed.

End Validation.

(* ===================================================================== *)
(** ** The authentication gate                                            *)
(* ===================================================================== *)

(** C1 (as amended): the gate classifies every request.  The token is the
    second space-separated field of the Authorization header, whatever the
    first field is.  With no header, or no non-empty second field, the
    answer is 401 "Access token required" and the token codec is not
    consulted.  Otherwise the token is verified against the access secret:
    a [TokenExpiredError] gives 401 "Access token expired", a
    [JsonWebTokenError] gives 401 "Invalid access token", any other failure
    gives 500 "Token verification failed", and on success the decoded
    claims become [req.user] and the request is passed on. *)
Theorem authenticateToken_classifies `{JsonWebToken} (env : Env) (now : Z) (req : Request) :
  (forall scheme token,
      has_space scheme = false -> has_space token = false ->
      split " " (scheme +:+ String " " token) !! 1%nat = Some token) /\
  (req_authorization req = None ->
   authenticateToken env now req =
     Respond (json 401 (JObj [("error", JStr "Access token required")]))) /\
  (forall h,
      req_authorization req = Some h ->
      split " " h !! 1%nat = None \/ split " " h !! 1%nat = Some "" ->
      authenticateToken env now req =
        Respond (json 401 (JObj [("error", JStr "Access token required")]))) /\
  (forall h token,
      req_authorization req = Some h ->
      split " " h !! 1%nat = Some token -> token <> "" ->
      (forall error,
          verifyAccessToken env now token = Throw error ->
          err_name error = "TokenExpiredError" ->
          authenticateToken env now req =
            Respond (json 401 (JObj [("error", JStr "Access token expired")]))) /\
      (forall error,
          verifyAccessToken env now token = Throw error ->
          err_name error = "JsonWebTokenError" ->
          authenticateToken env now req =
            Respond (json 401 (JObj [("error", JStr "Invalid access token")]))) /\
      (forall error,
          verifyAccessToken env now token = Throw error ->
          err_name error <> "TokenExpiredError" ->
          err_name error <> "JsonWebTokenError" ->
          authenticateToken env now req =
            Respond (json 500 (JObj [("error", JStr "Token verification failed")]))) /\
      (forall decoded,
          verifyAccessToken env now token = Ok decoded ->
          authenticateToken env now req = Next (set_user req decoded) /\
          req_user (set_user req decoded) = Some decoded)).
Proof.
  split; [| split; [| split]].
  - intros scheme token Hs Ht.
    rewrite (split_first_field _ _ Hs), (split_no_space _ Ht). reflexivity.
  - intros Hnone. unfold authenticateToken. rewrite Hnone. reflexivity.
  - intros h Hh Hfield. unfold authenticateToken, bearerToken. rewrite Hh.
    destruct h as [| c h]; [reflexivity |].
    destruct Hfield as [-> | ->]; reflexivity.
  - intros h token Hh Hfield Hne.
    assert (Hgate : authenticateToken env now req =
                    match verifyAccessToken env now token with
                    | Ok decoded => Next (set_user req decoded)
                    | Throw error =>
                        if String.eqb (err_name error) "TokenExpiredError" then
                          Respond (json 401 (JObj [("error", JStr "Access token expired")]))
                        else if String.eqb (err_name error) "JsonWebTokenError" then
                          Respond (json 401 (JObj [("error", JStr "Invalid access token")]))
                        else
                          Respond (json 500 (JObj [("error", JStr "Token verification failed")]))
                    end).
    { unfold authenticateToken, bearerToken. rewrite Hh.
      destruct h as [| c h]; [discriminate Hfield |].
      rewrite Hfield. destruct token; [contradiction | reflexivity]. }
    rewrite Hgate. split; [| split; [| split]].
    + intros error -> ->. reflexivity.
    + intros error -> ->. reflexivity.
    + intros error -> Hn1 Hn2.
      destruct (String.eqb_spec (err_name error) "TokenExpiredError"); [contradiction |].
      destruct (String.eqb_spec (err_name error) "JsonWebTokenError"); [contradiction |].
      reflexivity.
    + intros decoded ->. split; reflexivity.
Qed.

(** Run on the concrete deployment: the token issued at signup, presented
    as [Bearer <token>] one second later, passes the gate. *)
Lemma authenticateToken_classifies_witness :
  Scenario.gate 6000 (Scenario.request GET [] Scenario.bearer JNull (JObj [])) =
  Next (set_user (Scenario.request GET [] Scenario.bearer JNull (JObj []))
          {| claims := {| userId := 1; email := Some "a@b.com" |}; iat := 5; exp := 605 |}).
Proof.
  destruct (@authenticateToken_classifies Reference.jwt Scenario.env 6000
              (Scenario.request GET [] Scenario.bearer JNull (JObj [])))
    as (_ & _ & _ & Hverified).
  destruct (Hverified ("Bearer " +:+ Scenario.accessToken) Scenario.accessToken
              eq_refl eq_refl ltac:(discriminate))
    as (_ & _ & _ & Hok).
  exact (proj1 (Hok _ eq_refl)).
Defined.

(** C1, counterexample: a header that is not of the form [Bearer <token>]
    is not answered with "Access token required".  [Basic xyz] reaches the
    token codec and is answered "Invalid access token"; [Token <t>] with a
    valid access token [t] passes the gate. *)
Lemma authenticateToken_ignores_scheme :
  Scenario.gate 6000 (Scenario.request GET [] (Some "Basic xyz") JNull (JObj [])) =
  Respond (json 401 (JObj [("error", JStr "Invalid access token")])) /\
  (exists decoded,
      Scenario.gate 6000
        (Scenario.request GET [] (Some ("Token " +:+ Scenario.accessToken)) JNull (JObj [])) =
      Next (set_user
              (Scenario.request GET [] (Some ("Token " +:+ Scenario.accessToken)) JNull (JObj []))
              decoded)).
Proof.
  split; [reflexivity |]. eexists. reflexivity.
Qed.

(** X19: an access token presented as [Bearer <token>] once its lifetime
    has elapsed is answered with the "expired" variant, not the "invalid"
    one. *)
Lemma expired_access_token_rejected `{JsonWebToken} env issued now payload req :
  let token := generateAccessToken env issued payload in
  req_authorization req = Some ("Bearer " +:+ token) ->
  has_space token = false -> token <> "" ->
  clock issued + access_expiry env <= clock now ->
  authenticateToken env now req =
    Respond (json 401 (JObj [("error", JStr "Access token expired")])).
Proof.
  intros token Hheader Hspace Hne Hexpired.
  unfold authenticateToken. rewrite Hheader.
  change ("Bearer " +:+ token) with ("Bearer" +:+ String " " token).
  rewrite (bearerToken_second_field "Bearer" token eq_refl Hspace).
  destruct token as [| c rest] eqn:Htoken; [contradiction |].
  rewrite <- Htoken. unfold verifyAccessToken, token, generateAccessToken.
  rewrite (jwt_verify_expired _ _ _ _ _ Hexpired). reflexivity.
Qed.

(* ===================================================================== *)
(** ** The token codec                                                    *)
(* ===================================================================== *)




(* ===================================================================== *)
(** ** The trade ledger                                                   *)
(* ===================================================================== *)

Section Trades.
Context `{JsonWebToken, JoiLib, JsGlobals}.

(** A request the gate lets through goes on with [req.user] set, and
    nothing else changed. *)
Lemma authenticateToken_passes env now req req' :
  authenticateToken env now req = Next req' ->
  exists decoded, req' = set_user req decoded.
Proof.
  unfold authenticateToken.
  destruct (bearerToken (req_authorization req)) as [[| c token] |]; try discriminate.
  destruct (verifyAccessToken env now (String c token)) as [decoded | error].
  - intros [= <-]. eauto.
  - destruct (String.eqb (err_name error) "TokenExpiredError"); [discriminate |].
    destruct (String.eqb (err_name error) "JsonWebTokenError"); discriminate.
Qed.

(** [GET /trades/:id] for an id that Joi reads as the positive integer
    [i]: the stored record, or 404. *)
Lemma get_trade_by_id env now db req req' s i :
  authenticateToken env now req = Next req' ->
  req_method req = GET -> req_path req = [s] ->
  joi_to_number s = Some (inject_Z i) -> 0 < i <= MAX_SAFE_INTEGER ->
  trades_api env now db req =
    (match trades db !! i with
     | Some row => json 200 (responseTradeData (i, row))
     | None => json 404 (JObj [("error", JStr "Trade not found")])
     end, db).
Proof.
  intros Hauth Hm Hp Hs Hi.
  destruct (authenticateToken_passes _ _ _ _ Hauth) as [decoded ->].
  unfold trades_api, tradesRoutes. rewrite Hauth. simpl. rewrite Hm, Hp.
  unfold validate, schema_validate. simpl.
  unfold validate_value. simpl. rewrite Hs.
  unfold safe_number. rewrite !Qleb_inject_Z, is_integer_inject_Z, Qltb_inject_Z.
  replace (- MAX_SAFE_INTEGER <=? i) with true by (symmetry; apply Z.leb_le; unfold MAX_SAFE_INTEGER in *; lia).
  replace (i <=? MAX_SAFE_INTEGER) with true by (symmetry; apply Z.leb_le; lia).
  replace (0 <? i) with true by (symmetry; apply Z.ltb_lt; lia).
  simpl. unfold get_trade, trade_findUnique. simpl. rewrite Qtrunc_inject_Z.
  destruct (trades db !! i); reflexivity.
Qed.

(** C4: an authenticated PUT, PATCH or DELETE on [/trades/:id] is answered
    405 "Method not allowed" with the reason "Trade modification is not
    permitted" (PUT, PATCH) or "Trade deletion is not permitted" (DELETE),
    whether or not a trade with that id exists, and the store is
    unchanged: every stored trade is afterwards retrieved by its id with
    all of its fields. *)
Theorem trade_mutation_rejected env now db req req' id :
  authenticateToken env now req = Next req' ->
  req_method req = PUT \/ req_method req = PATCH \/ req_method req = DELETE ->
  req_path req = [id] ->
  trades_api env now db req =
    (json 405 (JObj [("error", JStr "Method not allowed");
                     ("message", JStr match req_method req with
                                      | DELETE => "Trade deletion is not permitted"
                                      | _ => "Trade modification is not permitted"
                                      end)]), db) /\
  (forall i row later read read' s,
      trades db !! i = Some row ->
      authenticateToken env later read = Next read' ->
      req_method read = GET -> req_path read = [s] ->
      joi_to_number s = Some (inject_Z i) -> 0 < i <= MAX_SAFE_INTEGER ->
      trades_api env later (trades_api env now db req).2 read =
        (json 200 (responseTradeData (i, row)), db)).
Proof.
  intros Hauth Hm Hp.
  assert (Hres : trades_api env now db req =
    (json 405 (JObj [("error", JStr "Method not allowed");
                     ("message", JStr match req_method req with
                                      | DELETE => "Trade deletion is not permitted"
                                      | _ => "Trade modification is not permitted"
                                      end)]), db)).
  { destruct (authenticateToken_passes _ _ _ _ Hauth) as [decoded ->].
    unfold trades_api, tradesRoutes. rewrite Hauth. simpl. rewrite Hp.
    destruct Hm as [-> | [-> | ->]]; reflexivity. }
  split; [exact Hres |].
  intros i row later read read' s Hrow Hread Hget Hpath Hs Hi.
  rewrite Hres. simpl.
  rewrite (get_trade_by_id _ _ _ _ _ _ _ Hread Hget Hpath Hs Hi), Hrow.
  reflexivity.
Qed.

End Trades.

(** On the concrete deployment: DELETE /trades/1 is refused and trade 1 is
    still served. *)
Lemma trade_mutation_rejected_witness :
  Scenario.trades_ 7000 Scenario.db2
    (Scenario.request DELETE ["1"] Scenario.bearer JNull (JObj [])) =
  (json 405 (JObj [("error", JStr "Method not allowed");
                   ("message", JStr "Trade deletion is not permitted")]), Scenario.db2) /\
  Scenario.trades_ 8000
    (Scenario.trades_ 7000 Scenario.db2
       (Scenario.request DELETE ["1"] Scenario.bearer JNull (JObj []))).2
    (Scenario.request GET ["1"] Scenario.bearer JNull (JObj [])) =
  (json 200 (responseTradeData (1, Scenario.buy)), Scenario.db2).
Proof.
  destruct (@trade_mutation_rejected Reference.jwt Reference.joi Reference.globals
              Scenario.env 7000 Scenario.db2
              (Scenario.request DELETE ["1"] Scenario.bearer JNull (JObj []))
              _ "1" eq_refl (or_intror (or_intror eq_refl)) eq_refl)
    as [Hrefused Hkept].
  split; [exact Hrefused |].
  refine (Hkept 1 Scenario.buy 8000
            (Scenario.request GET ["1"] Scenario.bearer JNull (JObj []))
            _ "1" eq_refl eq_refl eq_refl eq_refl eq_refl _).
  unfold MAX_SAFE_INTEGER. lia.
Defined.

(* ===================================================================== *)
(** ** The account service                                                *)
(* ===================================================================== *)

(** *** Lookup by e-mail *)

Lemma user_findUnique_email_None db e :
  no_account db e -> user_findUnique_email db e = None.
Proof.
  intros Hno. unfold user_findUnique_email.
  assert (Hfind : list_find (fun u : User => u_email u.2 = e) (map_to_list (users db)) = None).
  { apply list_find_None, Forall_forall. intros [i row] Hin.
    apply elem_of_map_to_list in Hin. simpl. exact (Hno i row Hin). }
  rewrite Hfind. reflexivity.
Qed.

Lemma user_findUnique_email_Some db e user :
  user_findUnique_email db e = Some user ->
  users db !! user.1 = Some user.2 /\ u_email user.2 = e.
Proof.
  unfold user_findUnique_email.
  destruct (list_find _ _) as [[n u] |] eqn:Hfind; [| discriminate].
  simpl. intros [= <-]. apply list_find_Some in Hfind as (Hn & He & _).
  split; [| exact He].
  apply elem_of_map_to_list. destruct u as [i row]. simpl.
  eapply list_elem_of_lookup_2. exact Hn.
Qed.

Lemma user_findUnique_email_is_Some db e :
  has_account db e -> is_Some (user_findUnique_email db e).
Proof.
  intros (i & row & Hrow & He). unfold user_findUnique_email.
  destruct (list_find_elem_of (fun u : User => u_email u.2 = e)
              (map_to_list (users db)) (i, row)) as [[n u] Hfind].
  - apply elem_of_map_to_list. exact Hrow.
  - exact He.
  - rewrite Hfind. simpl. eauto.
Qed.

Section Accounts.
Context `{JsonWebToken, Bcrypt, JoiLib}.

(** What the login schema lets through: both fields are strings, handed
    on as they came. *)
Lemma loginSchema_fields value value' :
  schema_validate loginSchema value = Some value' ->
  exists e p,
    get "email" value = Some (JStr e) /\ get "password" value = Some (JStr p) /\
    get "email" value' = Some (JStr e) /\ get "password" value' = Some (JStr p).
Proof.
  intros Hv.
  destruct (schema_validate_required _ _ _ "email" _ Hv eq_refl eq_refl)
    as (x & x' & Hx & _ & _).
  destruct (schema_validate_required _ _ _ "password" _ Hv eq_refl eq_refl)
    as (y & y' & Hy & _ & _).
  destruct (schema_validate_string_key _ _ _ "email" _ _ Hv eq_refl eq_refl Hx)
    as (Hx' & e & ->).
  destruct (schema_validate_string_key _ _ _ "password" _ _ Hv eq_refl eq_refl Hy)
    as (Hy' & p & ->).
  exists e, p. auto.
Qed.

(** The login route on a request that passes validation, by cases on the
    account found. *)
Lemma login_outcome env now salt db req e p :
  valid_post ["login"] loginSchema req ->
  get "email" (req_body req) = Some (JStr e) ->
  get "password" (req_body req) = Some (JStr p) ->
  auth_api env now salt db req =
    (match user_findUnique_email db e with
     | None => json 401 (JObj [("error", JStr "Invalid email or password")])
     | Some user =>
         if bcrypt_compare p (u_password user.2) then
           json 200 (JObj [("message", JStr "Login successful");
                           ("user", user_json user);
                           ("accessToken", JStr (generateAccessToken env now
                              {| userId := user.1; email := Some (u_email user.2) |}));
                           ("refreshToken", JStr (generateRefreshToken env now
                              {| userId := user.1; email := None |}))])
         else json 401 (JObj [("error", JStr "Invalid email or password")])
     end, db).
Proof.
  intros (Hm & Hp & [v Hv]) He Hpw.
  destruct (loginSchema_fields _ _ Hv) as (e' & p' & He' & Hpw' & Hve & Hvp).
  rewrite He in He'. injection He' as <-. rewrite Hpw in Hpw'. injection Hpw' as <-.
  unfold auth_api, authRoutes. rewrite Hm, Hp. unfold validate, req_property. rewrite Hv.
  unfold and_then, post_login. cbn [req_body set_property].
  rewrite Hve, Hvp. cbn [prisma_String mbind Result_bind].
  destruct (user_findUnique_email db e) as [user |]; [| reflexivity].
  cbn [bcrypt_string mbind Result_bind].
  destruct (bcrypt_compare p (u_password user.2)); reflexivity.
Qed.

(** C5: a login with an e-mail address that has no account and a login
    with an existing address and a password that does not match both fail
    with 401 and with the same body, character for character: "Invalid
    email or password".  This holds for every state of the user store and
    every pair of such requests (the stores, the times and the requests
    may differ or coincide); the store is left as it was. *)
Theorem login_failures_indistinguishable env now now' salt salt' db db' req req' e p e' p' :
  valid_post ["login"] loginSchema req ->
  get "email" (req_body req) = Some (JStr e) ->
  get "password" (req_body req) = Some (JStr p) ->
  no_account db e ->
  valid_post ["login"] loginSchema req' ->
  get "email" (req_body req') = Some (JStr e') ->
  get "password" (req_body req') = Some (JStr p') ->
  has_account db' e' -> wrong_password db' e' p' ->
  auth_api env now salt db req =
    (json 401 (JObj [("error", JStr "Invalid email or password")]), db) /\
  auth_api env now' salt' db' req' =
    (json 401 (JObj [("error", JStr "Invalid email or password")]), db') /\
  (auth_api env now salt db req).1 = (auth_api env now' salt' db' req').1.
Proof.
  intros Hreq He Hp Hno Hreq' He' Hp' Hhas Hwrong.
  assert (Hfirst : auth_api env now salt db req =
               (json 401 (JObj [("error", JStr "Invalid email or password")]), db)).
  { rewrite (login_outcome _ _ _ _ _ _ _ Hreq He Hp).
    rewrite (user_findUnique_email_None _ _ Hno). reflexivity. }
  assert (Hsecond : auth_api env now' salt' db' req' =
               (json 401 (JObj [("error", JStr "Invalid email or password")]), db')).
  { rewrite (login_outcome _ _ _ _ _ _ _ Hreq' He' Hp').
    destruct (user_findUnique_email_is_Some _ _ Hhas) as [user Huser].
    rewrite Huser. apply user_findUnique_email_Some in Huser as [Hrow Hmail].
    rewrite (Hwrong _ _ Hrow Hmail). reflexivity. }
  rewrite Hfirst, Hsecond. auto.
Qed.

End Accounts.

(** The only account of the concrete deployment. *)
Lemma scenario_accounts i row :
  users Scenario.db1 !! i = Some row -> i = 1 /\ row = Scenario.alice.
Proof.
  unfold Scenario.db1. simpl. intros Hrow.
  apply lookup_insert_Some in Hrow as [[<- <-] | [_ Hempty]]; [auto |].
  rewrite lookup_empty in Hempty. discriminate.
Qed.

(** On the concrete deployment: an unknown address and a wrong password
    get the same answer. *)
Lemma login_failures_indistinguishable_witness :
  Scenario.auth 7000 "" Scenario.db1
    (Scenario.request POST ["login"] None
       (JObj [("email", JStr "nobody@b.com"); ("password", JStr "secret1")]) (JObj [])) =
  (json 401 (JObj [("error", JStr "Invalid email or password")]), Scenario.db1) /\
  Scenario.auth 7000 "" Scenario.db1
    (Scenario.request POST ["login"] None
       (JObj [("email", JStr "a@b.com"); ("password", JStr "wrong-password")]) (JObj [])) =
  (json 401 (JObj [("error", JStr "Invalid email or password")]), Scenario.db1).
Proof.
  destruct (@login_failures_indistinguishable Reference.jwt Reference.bcrypt Reference.joi
              Scenario.env 7000 7000 "" "" Scenario.db1 Scenario.db1
              (Scenario.request POST ["login"] None
                 (JObj [("email", JStr "nobody@b.com"); ("password", JStr "secret1")]) (JObj []))
              (Scenario.request POST ["login"] None
                 (JObj [("email", JStr "a@b.com"); ("password", JStr "wrong-password")]) (JObj []))
              "nobody@b.com" "secret1" "a@b.com" "wrong-password")
    as (Hunknown & Hwrong & _).
  - repeat split; eexists; reflexivity.
  - reflexivity.
  - reflexivity.
  - intros i row Hrow. apply scenario_accounts in Hrow as [_ ->]. discriminate.
  - repeat split; eexists; reflexivity.
  - reflexivity.
  - reflexivity.
  - exists 1, Scenario.alice. split; reflexivity.
  - intros i row Hrow _. apply scenario_accounts in Hrow as [_ ->]. reflexivity.
  - split; assumption.
Defined.

Section Signup.
Context `{JsonWebToken, Bcrypt, JoiLib}.

(** What the signup schema lets through: a well-formed e-mail address and
    a password of length six or more (in UTF-16 units), handed on as they
    came. *)
Lemma signupSchema_fields value value' :
  schema_validate signupSchema value = Some value' ->
  exists e p,
    get "email" value = Some (JStr e) /\ get "password" value = Some (JStr p) /\
    get "email" value' = Some (JStr e) /\ get "password" value' = Some (JStr p) /\
    joi_is_email e = true /\ (6 <= js_length p)%nat.
Proof.
  intros Hv.
  destruct (schema_validate_required _ _ _ "email" _ Hv eq_refl eq_refl)
    as (x & x' & Hx & Hxv & Hx').
  destruct (schema_validate_required _ _ _ "password" _ Hv eq_refl eq_refl)
    as (y & y' & Hy & Hyv & Hy').
  apply validate_value_string in Hxv as (e & -> & -> & _ & He); [| reflexivity ..].
  apply validate_value_string in Hyv as (p & -> & -> & _ & Hp); [| reflexivity ..].
  exists e, p. simpl in He, Hp.
  rewrite andb_true_r in He, Hp. apply Z.leb_le in Hp.
  repeat split; try assumption. lia.
Qed.

(** The signup route on a request that passes validation, when the
    existence check reads [seen] and the insertion meets [db]. *)
Lemma signup_outcome env now salt seen db req e p :
  valid_post ["signup"] signupSchema req ->
  get "email" (req_body req) = Some (JStr e) ->
  get "password" (req_body req) = Some (JStr p) ->
  signup_interleaved env now salt seen db req =
    match user_findUnique_email seen e with
    | Some _ => (json 409 (JObj [("error", JStr "User with this email already exists")]), db)
    | None =>
        match user_findUnique_email db e with
        | Some _ =>
            (json 409 (JObj [("error", JStr "Unique constraint violation");
                             ("details", JStr "A record with this data already exists")]), db)
        | None =>
            let id := next_user_id db in
            (json 201 (JObj [("message", JStr "User created successfully");
                             ("user", JObj [("id", JInt id); ("email", JStr e)]);
                             ("accessToken", JStr (generateAccessToken env now
                                {| userId := id; email := Some e |}));
                             ("refreshToken", JStr (generateRefreshToken env now
                                {| userId := id; email := None |}))]),
             {| users := <[id := {| u_email := e; u_password := bcrypt_hash p 12 salt |}]> (users db);
                trades := trades db;
                next_user_id := id + 1; next_trade_id := next_trade_id db |})
        end
    end.
Proof.
  intros (Hm & Hp & [v Hv]) He Hpw.
  destruct (signupSchema_fields _ _ Hv) as (e' & p' & He' & Hpw' & Hve & Hvp & _).
  rewrite He in He'. injection He' as <-. rewrite Hpw in Hpw'. injection Hpw' as <-.
  unfold signup_interleaved, validate, req_property. rewrite Hv.
  unfold and_then, post_signup_interleaved. cbn [req_body set_property].
  rewrite Hve. cbn [prisma_String mbind Result_bind].
  destruct (user_findUnique_email seen e); [reflexivity |].
  unfold signup_create. cbn [req_body set_property]. rewrite Hve, Hvp.
  cbn [bcrypt_string prisma_String mbind Result_bind].
  unfold user_create. cbn [u_email].
  destruct (user_findUnique_email db e); reflexivity.
Qed.

Lemma auth_api_signup env now salt db req :
  req_method req = POST -> req_path req = ["signup"] ->
  auth_api env now salt db req = signup_interleaved env now salt db db req.
Proof.
  intros Hm Hp. unfold auth_api, authRoutes, signup_interleaved. rewrite Hm, Hp.
  reflexivity.
Qed.

(** C6 (as amended): when an account with the e-mail address exists, a
    signup for that address is answered 409 and the store is left as it
    was, on both paths that detect the duplicate.  The existence check of
    the handler answers "User with this email already exists"; the unique
    constraint of the store, met by a request whose check ran before the
    account appeared, is answered by the error handler with "Unique
    constraint violation". *)
Theorem duplicate_signup_conflict env now salt seen db req e p :
  valid_post ["signup"] signupSchema req ->
  get "email" (req_body req) = Some (JStr e) ->
  get "password" (req_body req) = Some (JStr p) ->
  has_account db e ->
  auth_api env now salt db req =
    (json 409 (JObj [("error", JStr "User with this email already exists")]), db) /\
  (no_account seen e ->
   signup_interleaved env now salt seen db req =
     (json 409 (JObj [("error", JStr "Unique constraint violation");
                      ("details", JStr "A record with this data already exists")]), db)).
Proof.
  intros Hreq He Hp Hhas.
  destruct (user_findUnique_email_is_Some _ _ Hhas) as [user Huser].
  split.
  - destruct Hreq as (Hm & Hpath & Hv).
    rewrite (auth_api_signup _ _ _ _ _ Hm Hpath).
    rewrite (signup_outcome _ _ _ _ _ _ _ _ (conj Hm (conj Hpath Hv)) He Hp).
    rewrite Huser. reflexivity.
  - intros Hno. rewrite (signup_outcome _ _ _ _ _ _ _ _ Hreq He Hp).
    rewrite (user_findUnique_email_None _ _ Hno), Huser. reflexivity.
Qed.




(** X20: the account just created can log in with the password it signed
    up with. *)
Lemma login_after_signup env now later salt salt' db req login e p :
  valid_post ["signup"] signupSchema req ->
  get "email" (req_body req) = Some (JStr e) ->
  get "password" (req_body req) = Some (JStr p) ->
  no_account db e ->
  valid_post ["login"] loginSchema login ->
  get "email" (req_body login) = Some (JStr e) ->
  get "password" (req_body login) = Some (JStr p) ->
  status (auth_api env later salt' (auth_api env now salt db req).2 login).1 = 200.
Proof.
  intros Hreq He Hp Hno Hlogin He' Hp'.
  assert (Hsignup := signup_outcome env now salt db db req e p Hreq He Hp).
  rewrite (user_findUnique_email_None _ _ Hno) in Hsignup.
  destruct Hreq as (Hm & Hpath & _).
  rewrite (auth_api_signup _ _ _ _ _ Hm Hpath), Hsignup. cbn [snd].
  rewrite (login_outcome _ _ _ _ _ _ _ Hlogin He' Hp').
  set (row := {| u_email := e; u_password := bcrypt_hash p 12 salt |}).
  set (db' := {| users := <[next_user_id db := row]> (users db); trades := trades db;
                 next_user_id := next_user_id db + 1; next_trade_id := next_trade_id db |}).
  destruct (user_findUnique_email_is_Some db' e) as [user Huser].
  { exists (next_user_id db), row. split; [apply lookup_insert_eq | reflexivity]. }
  rewrite Huser. apply user_findUnique_email_Some in Huser as [Hrow Hmail].
  simpl in Hrow. apply lookup_insert_Some in Hrow as [[_ <-] | [_ Hold]].
  - simpl. rewrite bcrypt_compare_hash. reflexivity.
  - exfalso. exact (Hno _ _ Hold Hmail).
Qed.

End Signup.

(** C6, counterexample: the two paths that detect a duplicate answer with
    different messages.  On the concrete deployment, a second signup for
    "a@b.com" is answered "User with this email already exists" by the
    existence check, and "Unique constraint violation" when the check ran
    on the store as it was before the first signup. *)
Lemma duplicate_signup_messages_differ :
  get "error" (body (Scenario.auth 7000 "" Scenario.db1 Scenario.signup).1) =
    Some (JStr "User with this email already exists") /\
  get "error" (body (@signup_interleaved Reference.jwt Reference.bcrypt Reference.joi
                       Scenario.env 7000 "" Scenario.empty Scenario.db1 Scenario.signup).1) =
    Some (JStr "Unique constraint violation") /\
  (Scenario.auth 7000 "" Scenario.db1 Scenario.signup).1 <>
  (@signup_interleaved Reference.jwt Reference.bcrypt Reference.joi
     Scenario.env 7000 "" Scenario.empty Scenario.db1 Scenario.signup).1.
Proof.
  split; [reflexivity |]. split; [reflexivity |]. discriminate.
Qed.

(** On the concrete deployment: a second signup for "a@b.com" is a
    conflict on both paths and writes nothing. *)
Lemma duplicate_signup_conflict_witness :
  Scenario.auth 7000 "" Scenario.db1 Scenario.signup =
    (json 409 (JObj [("error", JStr "User with this email already exists")]), Scenario.db1) /\
  @signup_interleaved Reference.jwt Reference.bcrypt Reference.joi
    Scenario.env 7000 "" Scenario.empty Scenario.db1 Scenario.signup =
    (json 409 (JObj [("error", JStr "Unique constraint violation");
                     ("details", JStr "A record with this data already exists")]), Scenario.db1).
Proof.
  destruct (@duplicate_signup_conflict Reference.jwt Reference.bcrypt Reference.joi
              Scenario.env 7000 "" Scenario.empty Scenario.db1 Scenario.signup
              "a@b.com" "secret1")
    as [Hchecked Hconstraint].
  - repeat split; eexists; reflexivity.
  - reflexivity.
  - reflexivity.
  - exists 1, Scenario.alice. split; reflexivity.
  - split; [exact Hchecked |]. apply Hconstraint.
    intros i row Hrow. simpl in Hrow. rewrite lookup_empty in Hrow. discriminate.
Defined.


Section Refresh.
Context `{JsonWebToken, Bcrypt, JoiLib}.

Lemma refresh_outcome env now salt db req token :
  refresh_request req token ->
  auth_api env now salt db req =
    (match verifyRefreshToken env now token with
     | Ok decoded =>
         match users db !! userId (claims decoded) with
         | None => json 401 (JObj [("error", JStr "User not found")])
         | Some row =>
             json 200 (JObj [("accessToken", JStr (generateAccessToken env now
                {| userId := userId (claims decoded); email := Some (u_email row) |}))])
         end
     | Throw error =>
         if String.eqb (err_name error) "TokenExpiredError" then
           json 401 (JObj [("error", JStr "Refresh token expired")])
         else if String.eqb (err_name error) "JsonWebTokenError" then
           json 401 (JObj [("error", JStr "Invalid refresh token")])
         else errorHandler env error
     end, db).
Proof.
  intros (Hm & Hp & Htoken & Hne).
  unfold auth_api, authRoutes. rewrite Hm, Hp.
  unfold post_token_refresh. rewrite Htoken.
  assert (Htruthy : truthy (Some (JStr token)) = true).
  { simpl. destruct (String.eqb_spec token ""); [contradiction | reflexivity]. }
  rewrite Htruthy. cbn [negb verifyRefreshToken_value].
  destruct (verifyRefreshToken env now token) as [decoded | error];
    cbn [mbind Result_bind].
  - unfold user_findUnique_id.
    destruct (users db !! userId (claims decoded)); reflexivity.
  - destruct (String.eqb (err_name error) "TokenExpiredError"); [reflexivity |].
    destruct (String.eqb (err_name error) "JsonWebTokenError"); reflexivity.
Qed.

(** C7: token refresh.  An expired refresh token is answered 401 "Refresh
    token expired"; one with an invalid signature 401 "Invalid refresh
    token"; a validly signed, unexpired one whose account id matches no
    stored account 401 "User not found"; and on success the body holds
    exactly one field, a newly issued access token for the account, and no
    refresh token; that access token, verified at once against the access
    secret, decodes to the id and the address of the account (the
    configured lifetime of an access token being positive).  The store is
    never written, and the presented token is
    neither rotated nor invalidated: presented again while it verifies, it
    is accepted again.  The first two cases are stated for any token, by
    the error the codec reports, and for the tokens the service issues:
    expired once its lifetime has elapsed, invalid when it was signed with
    another secret. *)
Theorem refresh_outcomes env now salt db req token :
  refresh_request req token ->
  (forall error,
      verifyRefreshToken env now token = Throw error ->
      err_name error = "TokenExpiredError" ->
      auth_api env now salt db req =
        (json 401 (JObj [("error", JStr "Refresh token expired")]), db)) /\
  (forall error,
      verifyRefreshToken env now token = Throw error ->
      err_name error = "JsonWebTokenError" ->
      auth_api env now salt db req =
        (json 401 (JObj [("error", JStr "Invalid refresh token")]), db)) /\
  (forall issued payload,
      token = generateRefreshToken env issued payload ->
      clock issued + refresh_expiry env <= clock now ->
      auth_api env now salt db req =
        (json 401 (JObj [("error", JStr "Refresh token expired")]), db)) /\
  (forall issued payload secret lifetime,
      token = jwt_sign payload secret lifetime issued ->
      secret <> JWT_REFRESH_SECRET env ->
      auth_api env now salt db req =
        (json 401 (JObj [("error", JStr "Invalid refresh token")]), db)) /\
  (forall decoded,
      verifyRefreshToken env now token = Ok decoded ->
      users db !! userId (claims decoded) = None ->
      auth_api env now salt db req =
        (json 401 (JObj [("error", JStr "User not found")]), db)) /\
  (forall issued payload,
      token = generateRefreshToken env issued payload ->
      clock now < clock issued + refresh_expiry env ->
      auth_api env now salt db req =
        (match users db !! userId payload with
         | None => json 401 (JObj [("error", JStr "User not found")])
         | Some row =>
             json 200 (JObj [("accessToken", JStr (generateAccessToken env now
                {| userId := userId payload; email := Some (u_email row) |}))])
         end, db)) /\
  (forall decoded row,
      verifyRefreshToken env now token = Ok decoded ->
      users db !! userId (claims decoded) = Some row ->
      auth_api env now salt db req =
        (json 200 (JObj [("accessToken", JStr (generateAccessToken env now
           {| userId := userId (claims decoded); email := Some (u_email row) |}))]), db) /\
      (0 < access_expiry env ->
       exists issued,
         verifyAccessToken env now (generateAccessToken env now
           {| userId := userId (claims decoded); email := Some (u_email row) |}) =
           Ok issued /\
         userId (claims issued) = userId (claims decoded) /\
         email (claims issued) = Some (u_email row)) /\
      forall later decoded',
        verifyRefreshToken env later token = Ok decoded' ->
        userId (claims decoded') = userId (claims decoded) ->
        auth_api env later salt (auth_api env now salt db req).2 req =
          (json 200 (JObj [("accessToken", JStr (generateAccessToken env later
             {| userId := userId (claims decoded); email := Some (u_email row) |}))]), db)).
Proof.
  intros Hreq.
  pose proof (fun t d => refresh_outcome env t salt d req token Hreq) as Hout.
  split; [| split; [| split; [| split; [| split; [| split]]]]].
  - intros error Hv Hname. rewrite Hout, Hv, Hname. reflexivity.
  - intros error Hv Hname. rewrite Hout, Hv, Hname. reflexivity.
  - intros issued payload -> Hexpired. rewrite Hout.
    unfold verifyRefreshToken, generateRefreshToken.
    rewrite (jwt_verify_expired _ _ _ _ _ Hexpired). reflexivity.
  - intros issued payload secret lifetime -> Hsecret. rewrite Hout.
    unfold verifyRefreshToken.
    rewrite (jwt_verify_other_secret _ _ _ _ _ _ Hsecret). reflexivity.
  - intros decoded Hv Hnone. rewrite Hout, Hv, Hnone. reflexivity.
  - intros issued payload -> Hfresh. rewrite Hout.
    unfold verifyRefreshToken, generateRefreshToken.
    rewrite (jwt_verify_sign _ _ _ _ _ Hfresh). reflexivity.
  - intros decoded row Hv Hrow.
    assert (Hfirst : auth_api env now salt db req =
      (json 200 (JObj [("accessToken", JStr (generateAccessToken env now
         {| userId := userId (claims decoded); email := Some (u_email row) |}))]), db)).
    { rewrite Hout, Hv, Hrow. reflexivity. }
    split; [exact Hfirst |]. split.
    { intros Hlife. eexists. split.
      - unfold verifyAccessToken, generateAccessToken. apply jwt_verify_sign. lia.
      - split; reflexivity. }
    intros later decoded' Hv' Hsame. rewrite Hfirst. cbn [snd].
    rewrite Hout, Hv', Hsame, Hrow. reflexivity.
Qed.

End Refresh.

(** On the concrete deployment: the refresh token issued at signup buys a
    new access token one second later, and again a second after that. *)
Lemma refresh_outcomes_witness :
  Scenario.auth 6000 "" Scenario.db1
    (Scenario.request POST ["token"; "refresh"] None
       (JObj [("refreshToken", JStr Scenario.refreshToken)]) (JObj [])) =
  (json 200 (JObj [("accessToken", JStr (@generateAccessToken Reference.jwt Scenario.env 6000
      {| userId := 1; email := Some "a@b.com" |}))]), Scenario.db1) /\
  exists issued,
    @verifyAccessToken Reference.jwt Scenario.env 6000
      (@generateAccessToken Reference.jwt Scenario.env 6000
         {| userId := 1; email := Some "a@b.com" |}) = Ok issued /\
    userId (claims issued) = 1 /\ email (claims issued) = Some "a@b.com".
Proof.
  destruct (@refresh_outcomes Reference.jwt Reference.bcrypt Reference.joi
              Scenario.env 6000 "" Scenario.db1
              (Scenario.request POST ["token"; "refresh"] None
                 (JObj [("refreshToken", JStr Scenario.refreshToken)]) (JObj []))
              Scenario.refreshToken)
    as (_ & _ & _ & _ & _ & _ & Hsuccess).
  - repeat split. discriminate.
  - destruct (Hsuccess
                {| claims := {| userId := 1; email := None |}; iat := 5; exp := 604805 |}
                Scenario.alice eq_refl eq_refl) as (Hfirst & Hverified & _).
    split; [exact Hfirst | exact (Hverified eq_refl)].
Defined.

(* ===================================================================== *)
(** ** Creating a trade                                                   *)
(* ===================================================================== *)

Section CreateTrade.
Context `{JsonWebToken, JoiLib, JsGlobals}.

Lemma reads_functional value i j : reads value i -> reads value j -> i = j.
Proof.
  intros (Ht & Hu & Hs & Hn & Hp) (Ht' & Hu' & Hs' & Hn' & Hp').
  destruct i, j. simpl in *. congruence.
Qed.

(** An insertion the store accepts is [with_trade]. *)
Lemma trade_create_with_trade db row owner :
  users db !! t_userId row = Some owner ->
  trade_create db row = Ok ((next_trade_id db, row), with_trade db row).
Proof. intros Howner. unfold trade_create. rewrite Howner. reflexivity. Qed.

(** What the trade schema lets through, and what the handler then reads. *)
Lemma createTradeSchema_fields value value' :
  schema_validate createTradeSchema value = Some value' ->
  exists i,
    reads value i /\ within_rules i /\
    get "type" value' = Some (JStr (in_type i)) /\
    get "user_id" value' = Some (JNum (in_user_id i)) /\
    get "symbol" value' = Some (JStr (in_symbol i)) /\
    get "shares" value' = Some (JNum (in_shares i)) /\
    get "price" value' = Some (JNum (in_price i)).
Proof.
  intros Hv.
  destruct (schema_validate_required _ _ _ "type" _ Hv eq_refl eq_refl)
    as (xt & xt' & Ht & Htv & Ht').
  destruct (schema_validate_required _ _ _ "user_id" _ Hv eq_refl eq_refl)
    as (xu & xu' & Hu & Huv & Hu').
  destruct (schema_validate_required _ _ _ "symbol" _ Hv eq_refl eq_refl)
    as (xs & xs' & Hs & Hsv & Hs').
  destruct (schema_validate_required _ _ _ "shares" _ Hv eq_refl eq_refl)
    as (xn & xn' & Hn & Hnv & Hn').
  destruct (schema_validate_required _ _ _ "price" _ Hv eq_refl eq_refl)
    as (xp & xp' & Hp & Hpv & Hp').
  eapply validate_value_allowed in Htv as (ty & -> & -> & Hty); [| reflexivity].
  apply validate_value_number in Huv as (u & Hcu & -> & _ & Hur); [| reflexivity ..].
  apply validate_value_string in Hsv as (sym & -> & -> & Hsym & _); [| reflexivity ..].
  apply validate_value_number in Hnv as (n & Hcn & -> & _ & Hnr); [| reflexivity ..].
  apply validate_value_number in Hpv as (pr & Hcp & -> & _ & Hpr); [| reflexivity ..].
  exists {| in_type := ty; in_user_id := u; in_symbol := sym; in_shares := n; in_price := pr |}.
  simpl in Hur, Hnr, Hpr.
  apply andb_true_iff in Hur as [Hui Hup]. rewrite andb_true_r in Hup.
  apply andb_true_iff in Hnr as [Hni Hnr].
  apply andb_true_iff in Hnr as [Hn1 Hn100]. rewrite andb_true_r in Hn100.
  rewrite andb_true_r in Hpr.
  apply Qltb_lt in Hup, Hpr. apply Qleb_le in Hn1, Hn100.
  unfold reads, within_rules. simpl. rewrite Ht, Hu, Hs, Hn, Hp. simpl.
  repeat split; try assumption.
  apply list_elem_of_In in Hty. simpl in Hty. intuition.
Qed.

(** POST /trades behind the gate: validation, then the handler. *)
Lemma post_trades_authenticated env now db req req' :
  authenticateToken env now req = Next req' ->
  req_method req = POST -> req_path req = [] ->
  trades_api env now db req =
    match schema_validate createTradeSchema (req_body req) with
    | None => (json 400 (JObj [("error", JStr "Validation failed")]), db)
    | Some value =>
        let '(o, db') := post_trade now db (set_property body_ req' value) in
        (finish env o, db')
    end.
Proof.
  intros Hauth Hm Hp.
  destruct (authenticateToken_passes _ _ _ _ Hauth) as [decoded ->].
  unfold trades_api, tradesRoutes. rewrite Hauth. simpl. rewrite Hm, Hp.
  unfold validate, req_property. simpl.
  destruct (schema_validate createTradeSchema (req_body req)); reflexivity.
Qed.

(** On ASCII text the case mapping of the runtime replaces the letters a
    to z by their capitals and keeps the rest. *)
Lemma upper_ascii_code c :
  nat_of_ascii (upper_ascii c) =
  if ((97 <=? nat_of_ascii c)%nat && (nat_of_ascii c <=? 122)%nat)%bool
  then (nat_of_ascii c - 32)%nat else nat_of_ascii c.
Proof.
  unfold upper_ascii.
  destruct ((97 <=? nat_of_ascii c)%nat && (nat_of_ascii c <=? 122)%nat)%bool eqn:Hletter;
    [| reflexivity].
  apply andb_true_iff in Hletter as [_ Hz]. apply Nat.leb_le in Hz.
  apply nat_ascii_embedding. lia.
Qed.

Lemma toUpperCase_capitals s : ascii_text s -> capitals s (toUpperCase s).
Proof.
  unfold ascii_text, capitals.
  induction s as [| c s IH]; simpl; intros Hall.
  - rewrite toUpperCase_empty. constructor.
  - apply Forall_cons in Hall as [Hc Hrest].
    rewrite (toUpperCase_ascii c s Hc). simpl.
    constructor; [apply upper_ascii_code | exact (IH Hrest)].
Qed.

(** The handler on a validated body. *)
Lemma post_trade_valid now db req i :
  within_rules i ->
  get "type" (req_body req) = Some (JStr (in_type i)) ->
  get "user_id" (req_body req) = Some (JNum (in_user_id i)) ->
  get "symbol" (req_body req) = Some (JStr (in_symbol i)) ->
  get "shares" (req_body req) = Some (JNum (in_shares i)) ->
  get "price" (req_body req) = Some (JNum (in_price i)) ->
  post_trade now db req =
    match users db !! Qtrunc (in_user_id i) with
    | Some _ =>
        (Respond (json 201 (responseTradeData (next_trade_id db, trade_of now i))),
         with_trade db (trade_of now i))
    | None =>
        (NextErr (PrismaKnownRequestError "P2003"
                    "Foreign key constraint failed on the field: user_id"), db)
    end.
Proof.
  intros (_ & (Hui & _) & _ & (Hni & _) & _) Ht Hu Hs Hn Hp.
  unfold post_trade. rewrite Ht, Hu, Hs, Hn, Hp.
  cbn [call_toUpperCase prisma_String prisma_Int parseFloat prisma_Float mbind Result_bind].
  rewrite Hui, Hni. cbn [mbind Result_bind].
  unfold trade_create. cbn [t_userId].
  destruct (users db !! Qtrunc (in_user_id i)); reflexivity.
Qed.

(** C3 (as amended): POST /trades behind the gate.  If the body breaks a
    constraint (a direction other than "buy" or "sell", a share count that
    is not an integer from 1 to 100, a price that is not positive, an
    owner that is not a positive integer, an empty symbol, a required
    field missing) the answer is 400 "Validation failed" and the store is
    not written.  If the body is valid and its owner is the id of an
    account, the trade is stored under the next id with its symbol in
    upper case and the instant of the write, and the record is returned
    with that instant as an integer count of milliseconds.  The symbol is
    put in upper case by the runtime's [toUpperCase]: in a symbol of
    ASCII characters every letter a to z is replaced by its capital and
    every other character is kept.  If the body is valid and its owner is
    no account, the store refuses the row (foreign key), the answer is
    the error handler's 500 and nothing is written. *)
Theorem create_trade env now db req req' :
  authenticateToken env now req = Next req' ->
  req_method req = POST -> req_path req = [] ->
  (violates (req_body req) ->
   trades_api env now db req = (json 400 (JObj [("error", JStr "Validation failed")]), db)) /\
  (forall value,
      schema_validate createTradeSchema (req_body req) = Some value ->
      exists i, reads (req_body req) i /\ within_rules i) /\
  (forall value i,
      schema_validate createTradeSchema (req_body req) = Some value ->
      reads (req_body req) i ->
      match users db !! Qtrunc (in_user_id i) with
      | Some _ =>
          trades_api env now db req =
            (json 201 (responseTradeData (next_trade_id db, trade_of now i)),
             with_trade db (trade_of now i)) /\
          trades (trades_api env now db req).2 !! next_trade_id db = Some (trade_of now i) /\
          get "symbol" (body (trades_api env now db req).1) =
            Some (JStr (toUpperCase (in_symbol i))) /\
          get "timestamp" (body (trades_api env now db req).1) = Some (JInt now) /\
          (ascii_text (in_symbol i) ->
           capitals (in_symbol i) (toUpperCase (in_symbol i)))
      | None =>
          trades_api env now db req =
            (errorHandler env (PrismaKnownRequestError "P2003"
                                 "Foreign key constraint failed on the field: user_id"), db) /\
          status (trades_api env now db req).1 = 500
      end).
Proof.
  intros Hauth Hm Hp.
  pose proof (post_trades_authenticated env now db req req' Hauth Hm Hp) as Hapi.
  split; [| split].
  - intros Hbad.
    destruct (schema_validate createTradeSchema (req_body req)) as [value |] eqn:Hv;
      [exfalso | exact Hapi].
    destruct (createTradeSchema_fields _ _ Hv)
      as (i & (Rt & Ru & Rs & Rn & Rp) & (Wt & Wu & Ws & Wn & Wp) & _).
    destruct Hbad as [[Hb Hs] | [Hshares | [Hprice | [Howner | [Hsymbol | (k & Hk & Hnone)]]]]].
    + destruct Wt as [Wt | Wt]; rewrite Wt in Rt; contradiction.
    + exact (Hshares _ Rn Wn).
    + exact (Hprice _ Rp Wp).
    + exact (Howner _ Ru Wu).
    + exact (Ws (Hsymbol _ Rs)).
    + apply list_elem_of_In in Hk. simpl in Hk.
      destruct Hk as [<- | [<- | [<- | [<- | [<- | []]]]]];
        rewrite Hnone in *; simpl in *; discriminate.
  - intros value Hv.
    destruct (createTradeSchema_fields _ _ Hv) as (i & Hr & Hw & _). eauto.
  - intros value i Hv Hr. rewrite Hv in Hapi.
    destruct (createTradeSchema_fields _ _ Hv) as (j & Hr' & Hw & Ht & Hu & Hs & Hn & Hpr).
    rewrite <- (reads_functional _ _ _ Hr Hr') in *.
    rewrite (post_trade_valid now db (set_property body_ req' value) i Hw Ht Hu Hs Hn Hpr)
      in Hapi.
    destruct (users db !! Qtrunc (in_user_id i)).
    + rewrite Hapi. simpl.
      split; [reflexivity |]. split; [apply lookup_insert_eq |].
      split; [reflexivity |]. split; [reflexivity |].
      apply toUpperCase_capitals.
    + rewrite Hapi. split; reflexivity.
Qed.

End CreateTrade.

(** On the concrete deployment: 100 shares are accepted and stored, 150
    shares and 0 shares are refused. *)
Lemma create_trade_witness :
  Scenario.trades_ 6000 Scenario.db1
    (Scenario.request POST [] Scenario.bearer (Scenario.trade_body "buy" 1 100) (JObj [])) =
  (json 201 (responseTradeData
               (1, {| t_type := "buy"; t_userId := 1; t_symbol := "AAPL"; t_shares := 100;
                      t_price := 601 # 4; t_timestamp := 6000 |})),
   with_trade Scenario.db1
     {| t_type := "buy"; t_userId := 1; t_symbol := "AAPL"; t_shares := 100;
        t_price := 601 # 4; t_timestamp := 6000 |}) /\
  Scenario.trades_ 6000 Scenario.db1
    (Scenario.request POST [] Scenario.bearer (Scenario.trade_body "buy" 1 150) (JObj [])) =
  (json 400 (JObj [("error", JStr "Validation failed")]), Scenario.db1) /\
  Scenario.trades_ 6000 Scenario.db1
    (Scenario.request POST [] Scenario.bearer (Scenario.trade_body "buy" 1 0) (JObj [])) =
  (json 400 (JObj [("error", JStr "Validation failed")]), Scenario.db1).
Proof.
  split; [| split].
  - destruct (@create_trade Reference.jwt Reference.joi Reference.globals
                Scenario.env 6000 Scenario.db1
                (Scenario.request POST [] Scenario.bearer (Scenario.trade_body "buy" 1 100) (JObj []))
                _ eq_refl eq_refl eq_refl) as (_ & _ & Hvalid).
    exact (proj1 (Hvalid _
      {| in_type := "buy"; in_user_id := inject_Z 1; in_symbol := "aapl";
         in_shares := inject_Z 100; in_price := 601 # 4 |}
      eq_refl (conj eq_refl (conj eq_refl (conj eq_refl (conj eq_refl eq_refl)))))).
  - destruct (@create_trade Reference.jwt Reference.joi Reference.globals
                Scenario.env 6000 Scenario.db1
                (Scenario.request POST [] Scenario.bearer (Scenario.trade_body "buy" 1 150) (JObj []))
                _ eq_refl eq_refl eq_refl) as (Hrefused & _).
    apply Hrefused. right. left. intros n [= <-] (_ & _ & Hle).
    unfold Qle in Hle. simpl in Hle. lia.
  - destruct (@create_trade Reference.jwt Reference.joi Reference.globals
                Scenario.env 6000 Scenario.db1
                (Scenario.request POST [] Scenario.bearer (Scenario.trade_body "buy" 1 0) (JObj []))
                _ eq_refl eq_refl eq_refl) as (Hrefused & _).
    apply Hrefused. right. left. intros n [= <-] (_ & Hge & _).
    unfold Qle in Hge. simpl in Hge. lia.
Defined.

(** C3, counterexample.  Without a token, a body that breaks a constraint
    is not answered 400: the gate answers 401 first.  And a valid body is
    not always stored: with an owner that is no account (user_id = 2, one
    account with id 1) the answer is 500 and no trade is written. *)
Lemma create_trade_not_for_every_request :
  Scenario.trades_ 6000 Scenario.db1
    (Scenario.request POST [] None (Scenario.trade_body "buy" 1 150) (JObj [])) =
  (json 401 (JObj [("error", JStr "Access token required")]), Scenario.db1) /\
  is_Some (@schema_validate Reference.joi createTradeSchema (Scenario.trade_body "buy" 2 50)) /\
  status (Scenario.trades_ 6000 Scenario.db1
            (Scenario.request POST [] Scenario.bearer (Scenario.trade_body "buy" 2 50) (JObj []))).1
    = 500 /\
  (Scenario.trades_ 6000 Scenario.db1
     (Scenario.request POST [] Scenario.bearer (Scenario.trade_body "buy" 2 50) (JObj []))).2
    = Scenario.db1.
Proof.
  split; [reflexivity |]. split; [eexists; reflexivity |]. split; reflexivity.
Qed.

Section TradeOwner.
Context `{JsonWebToken, JoiLib, JsGlobals}.

(** C10 (as amended): trade creation never consults the identity of the
    caller.  For every authenticated POST /trades with a valid body whose
    user_id is the id of an account, the stored and returned trade is
    owned by the user_id of the body, whatever account id the claims of
    the access token carry; any other authenticated caller who sends the
    same body gets the same result.  An authenticated caller can thus
    create a trade attributed to any existing account. *)
Theorem trade_owner_from_body env now db req req' value i owner :
  authenticateToken env now req = Next req' ->
  req_method req = POST -> req_path req = [] ->
  schema_validate createTradeSchema (req_body req) = Some value ->
  reads (req_body req) i ->
  users db !! Qtrunc (in_user_id i) = Some owner ->
  (exists trade,
      (trades_api env now db req).1 = json 201 (responseTradeData trade) /\
      trades (trades_api env now db req).2 !! trade.1 = Some trade.2 /\
      t_userId trade.2 = Qtrunc (in_user_id i) /\
      get "user_id" (responseTradeData trade) = Some (JInt (Qtrunc (in_user_id i)))) /\
  (forall caller caller',
      authenticateToken env now caller = Next caller' ->
      req_method caller = POST -> req_path caller = [] ->
      req_body caller = req_body req ->
      trades_api env now db caller = trades_api env now db req).
Proof.
  intros Hauth Hm Hp Hv Hr Howner.
  pose proof (post_trades_authenticated env now db req req' Hauth Hm Hp) as Hapi.
  rewrite Hv in Hapi.
  destruct (createTradeSchema_fields _ _ Hv) as (j & Hr' & Hw & Ht & Hu & Hs & Hn & Hpr).
  rewrite <- (reads_functional _ _ _ Hr Hr') in *.
  pose proof (post_trade_valid now db (set_property body_ req' value) i Hw Ht Hu Hs Hn Hpr)
    as Hpost.
  rewrite Howner in Hpost. rewrite Hpost in Hapi.
  split.
  - exists (next_trade_id db, trade_of now i). rewrite Hapi. simpl.
    repeat split. apply lookup_insert_eq.
  - intros caller caller' Hauth' Hm' Hp' Hbody.
    rewrite (post_trades_authenticated env now db caller caller' Hauth' Hm' Hp').
    rewrite Hbody, Hv, Hapi.
    rewrite (post_trade_valid now db (set_property body_ caller' value) i Hw Ht Hu Hs Hn Hpr).
    rewrite Howner. reflexivity.
Qed.

End TradeOwner.

(** On the concrete deployment: account 1 (the bearer of the token)
    creates a trade owned by account 2. *)
Lemma trade_owner_from_body_witness :
  exists trade,
    (Scenario.trades_ 6000 Scenario.db_two
       (Scenario.request POST [] Scenario.bearer (Scenario.trade_body "sell" 2 25) (JObj []))).1 =
    json 201 (responseTradeData trade) /\
    t_userId trade.2 = 2.
Proof.
  destruct (@trade_owner_from_body Reference.jwt Reference.joi Reference.globals
              Scenario.env 6000 Scenario.db_two
              (Scenario.request POST [] Scenario.bearer (Scenario.trade_body "sell" 2 25) (JObj []))
              _ _
              {| in_type := "sell"; in_user_id := inject_Z 2; in_symbol := "aapl";
                 in_shares := inject_Z 25; in_price := 601 # 4 |}
              Scenario.bob eq_refl eq_refl eq_refl eq_refl
              (conj eq_refl (conj eq_refl (conj eq_refl (conj eq_refl eq_refl))))
              eq_refl)
    as [(trade & Hresponse & _ & Howner & _) _].
  exists trade. split; [exact Hresponse | exact Howner].
Defined.

(** C10, counterexample: a trade cannot be attributed to any positive
    account id.  With one account (id 1), the authenticated caller's valid
    body with user_id = 2 is answered 500 and no trade is stored. *)
Lemma trade_owner_must_exist :
  is_Some (@schema_validate Reference.joi createTradeSchema (Scenario.trade_body "buy" 2 50)) /\
  status (Scenario.trades_ 6000 Scenario.db1
            (Scenario.request POST [] Scenario.bearer (Scenario.trade_body "buy" 2 50) (JObj []))).1
    = 500 /\
  trades (Scenario.trades_ 6000 Scenario.db1
            (Scenario.request POST [] Scenario.bearer (Scenario.trade_body "buy" 2 50) (JObj []))).2
    = ∅.
Proof.
  split; [eexists; reflexivity |]. split; reflexivity.
Qed.

(* ===================================================================== *)
(** ** Listing trades                                                     *)
(* ===================================================================== *)

#[global] Instance by_id_transitive : Transitive by_id.
Proof. intros a b c. unfold by_id. lia. Qed.

#[global] Instance by_id_total : Total by_id.
Proof. intros a b. unfold by_id. lia. Qed.

(** The list query returns the stored rows that match, each once. *)
Lemma trade_findMany_elem db w t :
  t ∈ trade_findMany db w <-> trades db !! t.1 = Some t.2 /\ matches w t.
Proof.
  unfold trade_findMany. rewrite merge_sort_Permutation, list_elem_of_filter.
  destruct t as [i row]. rewrite elem_of_map_to_list. simpl. tauto.
Qed.

Lemma sorted_distinct_ascending (l : list Trade) :
  StronglySorted by_id l -> NoDup l.*1 -> StronglySorted ascending l.
Proof.
  induction l as [| x l IH]; intros Hs Hnd; [constructor |].
  apply StronglySorted_cons in Hs as [Hx Hs].
  simpl in Hnd. apply NoDup_cons in Hnd as [Hnotin Hnd].
  apply StronglySorted_cons. split; [| exact (IH Hs Hnd)].
  apply Forall_forall. intros y Hy.
  pose proof (proj1 (Forall_forall _ _) Hx y Hy) as Hle.
  unfold by_id in Hle. unfold ascending.
  assert (x.1 <> y.1).
  { intros Heq. apply Hnotin. rewrite Heq. apply list_elem_of_fmap. eauto. }
  lia.
Qed.

Lemma trade_findMany_ascending db w : StronglySorted ascending (trade_findMany db w).
Proof.
  apply sorted_distinct_ascending.
  - apply StronglySorted_merge_sort; apply _.
  - unfold trade_findMany. rewrite merge_sort_Permutation.
    eapply sublist_NoDup; [apply (NoDup_fst_map_to_list (trades db)) |].
    apply fmap_sublist, sublist_filter.
Qed.


Section ListTrades.
Context `{JsonWebToken, JoiLib, JsGlobals}.

(** What the query schema lets through. *)
Lemma tradeQuerySchema_fields query query' :
  schema_validate tradeQuerySchema query = Some query' ->
  match get "type" query with
  | None => get "type" query' = None
  | Some x => exists ty, x = JStr ty /\ (ty = "buy" \/ ty = "sell") /\
                         get "type" query' = Some (JStr ty)
  end /\
  match get "user_id" query with
  | None => get "user_id" query' = None
  | Some x => exists u, coerce_number x = Some u /\ is_integer u = true /\ (0 < u)%Q /\
                        get "user_id" query' = Some (JNum u)
  end.
Proof.
  intros Hv. split.
  - pose proof (schema_validate_get _ _ _ "type" Hv) as Hget.
    destruct (get "type" query) as [x |]; [| exact Hget].
    destruct Hget as (sch & x' & Hk & Hx & Hg). injection Hk as <-.
    eapply validate_value_allowed in Hx as (ty & -> & -> & Hty); [| reflexivity].
    exists ty. apply list_elem_of_In in Hty. simpl in Hty. intuition.
  - pose proof (schema_validate_get _ _ _ "user_id" Hv) as Hget.
    destruct (get "user_id" query) as [x |]; [| exact Hget].
    destruct Hget as (sch & x' & Hk & Hx & Hg). injection Hk as <-.
    apply validate_value_number in Hx as (u & Hcu & -> & _ & Hur); [| reflexivity ..].
    simpl in Hur. apply andb_true_iff in Hur as [Hui Hup]. rewrite andb_true_r in Hup.
    apply Qltb_lt in Hup. eauto.
Qed.


(** GET /trades behind the gate, on a query that passes validation. *)
Lemma get_trades_authenticated env now db req req' query' :
  authenticateToken env now req = Next req' ->
  req_method req = GET -> req_path req = [] ->
  schema_validate tradeQuerySchema (req_query req) = Some query' ->
  trades_api env now db req =
    (json 200 (JArr (responseTradeData <$> trade_findMany db (query_where (req_query req)))), db).
Proof.
  intros Hauth Hm Hp Hv.
  destruct (authenticateToken_passes _ _ _ _ Hauth) as [decoded ->].
  unfold trades_api, tradesRoutes. rewrite Hauth. simpl. rewrite Hm, Hp.
  unfold validate, req_property. simpl. rewrite Hv. simpl.
  destruct (tradeQuerySchema_fields _ _ Hv) as [Hty Hu].
  unfold get_trades, query_where. simpl.
  destruct (get "type" (req_query req)) as [x |];
    [destruct Hty as (ty & -> & Hbs & ->) | rewrite Hty];
    (destruct (get "user_id" (req_query req)) as [y |];
     [destruct Hu as (u & Hcu & Hui & Hup & ->) | rewrite Hu]); simpl.
  - assert (Hnz : negb (Qnum u =? 0) = true).
    { unfold Qlt in Hup. simpl in Hup. apply negb_true_iff, Z.eqb_neq. lia. }
    rewrite Hcu, Hnz. destruct Hbs as [-> | ->]; reflexivity.
  - destruct Hbs as [-> | ->]; reflexivity.
  - assert (Hnz : negb (Qnum u =? 0) = true).
    { unfold Qlt in Hup. simpl in Hup. apply negb_true_iff, Z.eqb_neq. lia. }
    rewrite Hcu, Hnz. reflexivity.
  - reflexivity.
Qed.


End ListTrades.


(* ===================================================================== *)
(** * Further properties of the service                                   *)
(* ===================================================================== *)

(** ** What a request can do to the store *)

Lemma user_findUnique_email_None_inv db e :
  user_findUnique_email db e = None -> no_account db e.
Proof.
  unfold user_findUnique_email. intros Hnone i row Hrow.
  destruct (list_find (fun u : User => u_email u.2 = e) (map_to_list (users db)))
    as [[n u] |] eqn:Hfind; [discriminate |].
  apply list_find_None in Hfind.
  apply (proj1 (Forall_forall _ _) Hfind (i, row)).
  apply elem_of_map_to_list. exact Hrow.
Qed.

Lemma with_trade_ok db row :
  db_ok db -> is_Some (users db !! t_userId row) -> db_ok (with_trade db row).
Proof.
  intros [Hu Ht Ho He] Howner. split; simpl.
  - exact Hu.
  - intros i r Hr. apply lookup_insert_Some in Hr as [[<- _] | [_ Hr]]; [lia |].
    specialize (Ht _ _ Hr). lia.
  - intros i r Hr. apply lookup_insert_Some in Hr as [[_ <-] | [_ Hr]]; [exact Howner |].
    exact (Ho _ _ Hr).
  - exact He.
Qed.

Lemma with_user_ok db row :
  db_ok db -> no_account db (u_email row) -> db_ok (with_user db row).
Proof.
  intros [Hu Ht Ho He] Hfree. split; simpl.
  - intros i r Hr. apply lookup_insert_Some in Hr as [[<- _] | [_ Hr]]; [lia |].
    specialize (Hu _ _ Hr). lia.
  - exact Ht.
  - intros i r Hr. destruct (Ho _ _ Hr) as [owner Howner].
    destruct (decide (next_user_id db = t_userId r)) as [Heq | Hne].
    + rewrite Heq. rewrite lookup_insert_eq. eauto.
    + rewrite lookup_insert_ne by exact Hne. eauto.
  - intros i j r r' Hr Hr' Hmail.
    apply lookup_insert_Some in Hr as [[<- <-] | [_ Hr]];
      apply lookup_insert_Some in Hr' as [[<- <-] | [_ Hr']].
    + reflexivity.
    + exfalso. exact (Hfree _ _ Hr' (eq_sym Hmail)).
    + exfalso. exact (Hfree _ _ Hr Hmail).
    + exact (He _ _ _ _ Hr Hr' Hmail).
Qed.

(** ** The error handler *)

(** X1: an error the handler knows nothing about (no status of its own,
    neither P2002 nor P2025, neither JWT error) is answered 500 with its
    message, or "Internal server error" when it has none; the stack is in
    the body in development mode and only then. *)
Theorem errorHandler_unexpected env err :
  unexpected err ->
  status (errorHandler env err) = 500 /\
  get "error" (body (errorHandler env err)) =
    Some (JStr (if String.eqb (err_message err) "" then "Internal server error"
                else err_message err)) /\
  (NODE_ENV env = Some "development" ->
   get "stack" (body (errorHandler env err)) = Some (JStr (err_stack err))) /\
  (NODE_ENV env <> Some "development" ->
   get "stack" (body (errorHandler env err)) = None).
Proof.
  intros (Hstatus & H2002 & H2025 & Hjwt & Hexpired).
  unfold errorHandler.
  rewrite (bool_decide_eq_false_2 _ H2002), (bool_decide_eq_false_2 _ H2025).
  destruct (String.eqb_spec (err_name err) "JsonWebTokenError"); [contradiction |].
  destruct (String.eqb_spec (err_name err) "TokenExpiredError"); [contradiction |].
  rewrite Hstatus. simpl. repeat split.
  - intros Hdev. rewrite (bool_decide_eq_true_2 _ Hdev). reflexivity.
  - intros Hprod. rewrite (bool_decide_eq_false_2 _ Hprod). reflexivity.
Qed.

(** The stack of the foreign-key error is kept from the client in
    production. *)
Lemma errorHandler_unexpected_witness :
  status (errorHandler Scenario.env
            (PrismaKnownRequestError "P2003" "Foreign key constraint failed")) = 500 /\
  get "stack" (body (errorHandler Scenario.env
            (PrismaKnownRequestError "P2003" "Foreign key constraint failed"))) = None.
Proof.
  destruct (errorHandler_unexpected Scenario.env
              (PrismaKnownRequestError "P2003" "Foreign key constraint failed"))
    as (Hstatus & _ & _ & Hstack).
  - repeat split; discriminate.
  - split; [exact Hstatus |]. apply Hstack. discriminate.
Defined.

(** X2: whatever the error, the body of the answer carries a stack only
    in development mode, and the four kinds the handler knows (P2002,
    P2025, JsonWebTokenError, TokenExpiredError) never carry one. *)
Theorem errorHandler_stack_only_in_development env err :
  (is_Some (get "stack" (body (errorHandler env err))) ->
   NODE_ENV env = Some "development") /\
  (err_code err = Some "P2002" \/ err_code err = Some "P2025" \/
   err_name err = "JsonWebTokenError" \/ err_name err = "TokenExpiredError" ->
   get "stack" (body (errorHandler env err)) = None) /\
  (err_code err = Some "P2002" -> status (errorHandler env err) = 409) /\
  (err_code err = Some "P2025" -> status (errorHandler env err) = 404).
Proof.
  unfold errorHandler.
  destruct (bool_decide_reflect (err_code err = Some "P2002")) as [H2002 | H2002].
  { simpl. repeat split; try reflexivity.
    - intros [x Hx]. discriminate.
    - intros H2025. congruence. }
  destruct (bool_decide_reflect (err_code err = Some "P2025")) as [H2025 | H2025].
  { simpl. repeat split; try reflexivity.
    - intros [x Hx]. discriminate.
    - intros. contradiction. }
  destruct (String.eqb_spec (err_name err) "JsonWebTokenError") as [Hjwt | Hjwt].
  { simpl. repeat split; try reflexivity; try contradiction.
    intros [x Hx]. discriminate. }
  destruct (String.eqb_spec (err_name err) "TokenExpiredError") as [Hexp | Hexp].
  { simpl. repeat split; try reflexivity; try contradiction.
    intros [x Hx]. discriminate. }
  simpl.
  destruct (bool_decide_reflect (NODE_ENV env = Some "development")) as [Hdev | Hdev]; simpl.
  - repeat split; try contradiction; auto; intuition.
  - repeat split; try contradiction; try (intros [x Hx]; discriminate); intuition.
Qed.

Lemma unexpected_status env err : unexpected err -> status (errorHandler env err) = 500.
Proof.
  intros (Hstatus & H2002 & H2025 & Hjwt & Hexpired).
  unfold errorHandler.
  rewrite (bool_decide_eq_false_2 _ H2002), (bool_decide_eq_false_2 _ H2025).
  destruct (String.eqb_spec (err_name err) "JsonWebTokenError"); [contradiction |].
  destruct (String.eqb_spec (err_name err) "TokenExpiredError"); [contradiction |].
  rewrite Hstatus. reflexivity.
Qed.

Lemma unexpected_mkError name message code :
  code <> Some "P2002" -> code <> Some "P2025" ->
  name <> "JsonWebTokenError" -> name <> "TokenExpiredError" ->
  unexpected (mkError name message code).
Proof. intros. repeat split; assumption. Qed.

(** The errors the Prisma argument checks and [toUpperCase] throw are
    unexpected ones. *)
Lemma prisma_String_throws v e : prisma_String v = Throw e -> unexpected e.
Proof.
  destruct v as [[] |]; simpl; intros [= <-];
    apply unexpected_mkError; discriminate.
Qed.

Lemma prisma_Int_throws v e : prisma_Int v = Throw e -> unexpected e.
Proof.
  destruct v as [[| | q | | |] |]; simpl; try destruct (is_integer q);
    intros [= <-]; apply unexpected_mkError; discriminate.
Qed.

Lemma prisma_Float_throws v e : prisma_Float v = Throw e -> unexpected e.
Proof.
  destruct v; simpl; intros [= <-]; apply unexpected_mkError; discriminate.
Qed.

Lemma prisma_Int_parsed_throws v e : prisma_Int_parsed v = Throw e -> unexpected e.
Proof.
  destruct v; simpl; intros [= <-]; apply unexpected_mkError; discriminate.
Qed.

Lemma call_toUpperCase_throws `{JsGlobals} v e : call_toUpperCase v = Throw e -> unexpected e.
Proof.
  destruct v as [[] |]; simpl; intros [= <-];
    apply unexpected_mkError; discriminate.
Qed.

Lemma bcrypt_string_throws v e : bcrypt_string v = Throw e -> unexpected e.
Proof.
  destruct v as [[] |]; simpl; intros [= <-];
    apply unexpected_mkError; discriminate.
Qed.

Lemma trade_create_throws db row e : trade_create db row = Throw e -> unexpected e.
Proof.
  unfold trade_create. destruct (users db !! t_userId row); intros [= <-].
  apply unexpected_mkError; discriminate.
Qed.

Section Store.
Context `{JsonWebToken, Bcrypt, JoiLib, JsGlobals}.

(** The create handler either fails with an unexpected error and writes
    nothing, or appends one trade of an existing account. *)
Lemma post_trade_effect now db req :
  (exists e, post_trade now db req = (NextErr e, db) /\ unexpected e) \/
  (exists row,
      is_Some (users db !! t_userId row) /\ t_timestamp row = now /\
      post_trade now db req =
        (Respond (json 201 (responseTradeData (next_trade_id db, row))), with_trade db row)).
Proof.
  unfold post_trade.
  destruct (call_toUpperCase (get "symbol" (req_body req))) as [symbol' | e] eqn:Hs;
    [| left; exists e; split; [reflexivity | exact (call_toUpperCase_throws _ _ Hs)]].
  destruct (prisma_String (get "type" (req_body req))) as [type' | e] eqn:Ht;
    [| left; exists e; split; [reflexivity | exact (prisma_String_throws _ _ Ht)]].
  destruct (prisma_Int (get "user_id" (req_body req))) as [userId' | e] eqn:Hu;
    [| left; exists e; split; [reflexivity | exact (prisma_Int_throws _ _ Hu)]].
  destruct (prisma_Int (get "shares" (req_body req))) as [shares' | e] eqn:Hn;
    [| left; exists e; split; [reflexivity | exact (prisma_Int_throws _ _ Hn)]].
  destruct (prisma_Float (parseFloat (get "price" (req_body req)))) as [price' | e] eqn:Hp;
    [| left; exists e; split; [reflexivity | exact (prisma_Float_throws _ _ Hp)]].
  cbn [mbind Result_bind].
  destruct (trade_create db
              {| t_type := type'; t_userId := userId'; t_symbol := symbol';
                 t_shares := shares'; t_price := price'; t_timestamp := now |})
    as [[trade db'] | e] eqn:Hc.
  - right. unfold trade_create in Hc. cbn [t_userId] in Hc.
    destruct (users db !! userId') as [owner |] eqn:Howner; [| discriminate].
    injection Hc as <- <-.
    eexists. split; [| split; [| reflexivity]]; simpl; eauto.
  - left. exists e. split; [reflexivity | exact (trade_create_throws _ _ _ Hc)].
Qed.

Lemma get_trades_effect db req :
  (exists e, get_trades db req = (NextErr e, db) /\ unexpected e) \/
  (exists b, get_trades db req = (Respond (json 200 b), db)).
Proof.
  unfold get_trades.
  destruct (truthy (get "type" (req_query req))).
  - destruct (prisma_String (get "type" (req_query req))) as [ty | e] eqn:Ht;
      [| left; exists e; split; [reflexivity | exact (prisma_String_throws _ _ Ht)]].
    cbn [mbind Result_bind].
    destruct (truthy (get "user_id" (req_query req))).
    + destruct (prisma_Int_parsed (parseInt (get "user_id" (req_query req))))
        as [u | e] eqn:Hu;
        [| left; exists e; split; [reflexivity | exact (prisma_Int_parsed_throws _ _ Hu)]].
      right. eexists. reflexivity.
    + right. eexists. reflexivity.
  - cbn [mbind Result_bind].
    destruct (truthy (get "user_id" (req_query req))).
    + destruct (prisma_Int_parsed (parseInt (get "user_id" (req_query req))))
        as [u | e] eqn:Hu;
        [| left; exists e; split; [reflexivity | exact (prisma_Int_parsed_throws _ _ Hu)]].
      right. eexists. reflexivity.
    + right. eexists. reflexivity.
Qed.

Lemma get_trade_effect db req :
  (exists e, get_trade db req = (NextErr e, db) /\ unexpected e) \/
  (exists code b, get_trade db req = (Respond (json code b), db) /\ (code = 200 \/ code = 404)).
Proof.
  unfold get_trade.
  destruct (prisma_Int_parsed (parseInt (get "id" (req_params req)))) as [i | e] eqn:Hi;
    [| left; exists e; split; [reflexivity | exact (prisma_Int_parsed_throws _ _ Hi)]].
  cbn [mbind Result_bind]. right.
  destruct (trade_findUnique db i); do 2 eexists; (split; [reflexivity | auto]).
Qed.

Lemma authenticateToken_refuses env now req r :
  authenticateToken env now req = Respond r -> status r = 401 \/ status r = 500.
Proof.
  unfold authenticateToken.
  destruct (bearerToken (req_authorization req)) as [[| c token] |];
    try (intros [= <-]; auto).
  destruct (verifyAccessToken env now (String c token)) as [decoded | error];
    [discriminate |].
  destruct (String.eqb (err_name error) "TokenExpiredError"); [intros [= <-]; auto |].
  destruct (String.eqb (err_name error) "JsonWebTokenError"); intros [= <-]; auto.
Qed.

Lemma authenticateToken_no_error env now req e : authenticateToken env now req <> NextErr e.
Proof.
  unfold authenticateToken.
  destruct (bearerToken (req_authorization req)) as [[| c token] |]; try discriminate.
  destruct (verifyAccessToken env now (String c token)) as [decoded | error];
    [discriminate |].
  destruct (String.eqb (err_name error) "TokenExpiredError"); [discriminate |].
  destruct (String.eqb (err_name error) "JsonWebTokenError"); discriminate.
Qed.

(** What any request to the trades router does to the store: nothing, or
    one trade appended by a POST that is answered 201. *)
Lemma trades_api_effect env now db req :
  ((trades_api env now db req).2 = db /\ status (trades_api env now db req).1 <> 201) \/
  (exists row,
      req_method req = POST /\ req_path req = [] /\
      is_Some (users db !! t_userId row) /\ t_timestamp row = now /\
      trades_api env now db req =
        (json 201 (responseTradeData (next_trade_id db, row)), with_trade db row)).
Proof.
  unfold trades_api, tradesRoutes.
  destruct (authenticateToken env now req) as [r | req' | e] eqn:Hauth.
  - left. simpl. split; [reflexivity |].
    destruct (authenticateToken_refuses _ _ _ _ Hauth) as [-> | ->]; discriminate.
  - destruct (authenticateToken_passes _ _ _ _ Hauth) as [decoded ->].
    cbn [and_then]. change (req_method (set_user req decoded)) with (req_method req).
    change (req_path (set_user req decoded)) with (req_path req).
    destruct (req_method req) eqn:Hm; destruct (req_path req) as [| id [| id' rest]] eqn:Hp;
      try (left; simpl; split; [reflexivity | discriminate]).
    + unfold validate.
      destruct (schema_validate tradeQuerySchema _); cbn [and_then];
        [| left; simpl; split; [reflexivity | discriminate]].
      destruct (get_trades_effect db (set_property query_ (set_user req decoded) j))
        as [(e & -> & He) | (b & ->)]; left; simpl; split; try reflexivity; try discriminate.
      rewrite (unexpected_status _ _ He). discriminate.
    + unfold validate.
      destruct (schema_validate tradeIdSchema _); cbn [and_then];
        [| left; simpl; split; [reflexivity | discriminate]].
      match goal with |- context [get_trade db ?r] =>
        destruct (get_trade_effect db r) as [(e & -> & He) | (code & b & -> & Hcode)]
      end; left; simpl; split; try reflexivity.
      * rewrite (unexpected_status _ _ He). discriminate.
      * destruct Hcode as [-> | ->]; discriminate.
    + unfold validate.
      destruct (schema_validate createTradeSchema _); cbn [and_then];
        [| left; simpl; split; [reflexivity | discriminate]].
      match goal with |- context [post_trade now db ?r] =>
        destruct (post_trade_effect now db r)
          as [(e & -> & He) | (row & Howner & Htime & ->)]
      end.
      * left. simpl. split; [reflexivity |].
        rewrite (unexpected_status _ _ He). discriminate.
      * right. exists row. auto.
  - exfalso. exact (authenticateToken_no_error _ _ _ _ Hauth).
Qed.

End Store.

Section AccountStore.
Context `{JsonWebToken, Bcrypt, JoiLib, JsGlobals}.

(** Signup from the password hash on: an unexpected error, the unique
    constraint, or one account inserted under an address that was free. *)
Lemma signup_create_effect env now salt db req :
  (exists e, signup_create env now salt db req = Throw e /\
             (unexpected e \/ err_code e = Some "P2002")) \/
  (exists row res,
      no_account db (u_email row) /\ status res = 201 /\
      signup_create env now salt db req = Ok (res, with_user db row)).
Proof.
  unfold signup_create.
  destruct (bcrypt_string (get "password" (req_body req))) as [password' | e] eqn:Hp;
    [| left; exists e; split; [reflexivity | left; exact (bcrypt_string_throws _ _ Hp)]].
  destruct (prisma_String (get "email" (req_body req))) as [email' | e] eqn:He;
    [| left; exists e; split; [reflexivity | left; exact (prisma_String_throws _ _ He)]].
  cbn [mbind Result_bind]. unfold user_create. cbn [u_email].
  destruct (user_findUnique_email db email') eqn:Hfind.
  - left. eexists. split; [reflexivity | right; reflexivity].
  - right. do 2 eexists. split; [| split; [| reflexivity]].
    + exact (user_findUnique_email_None_inv _ _ Hfind).
    + reflexivity.
Qed.

Lemma post_signup_interleaved_effect env now salt seen db req :
  (post_signup_interleaved env now salt seen db req).2 = db \/
  (exists row res,
      no_account db (u_email row) /\ status res = 201 /\
      post_signup_interleaved env now salt seen db req = (Respond res, with_user db row)).
Proof.
  unfold post_signup_interleaved.
  destruct (prisma_String (get "email" (req_body req))) as [email' | e];
    [| left; reflexivity].
  cbn [mbind Result_bind].
  destruct (user_findUnique_email seen email'); [left; reflexivity |].
  destruct (signup_create_effect env now salt db req)
    as [(e & -> & _) | (row & res & Hfree & Hstatus & ->)].
  - left. reflexivity.
  - right. exists row, res. auto.
Qed.

Lemma post_login_effect env now db req : (post_login env now db req).2 = db.
Proof.
  unfold post_login.
  destruct (prisma_String (get "email" (req_body req))); [| reflexivity].
  cbn [mbind Result_bind].
  destruct (user_findUnique_email db _) as [user |]; [| reflexivity].
  destruct (bcrypt_string (get "password" (req_body req))) as [password' |];
    [| reflexivity].
  cbn [mbind Result_bind].
  destruct (negb (bcrypt_compare password' (u_password user.2))); reflexivity.
Qed.

Lemma post_token_refresh_effect env now db req : (post_token_refresh env now db req).2 = db.
Proof.
  unfold post_token_refresh.
  destruct (negb (truthy (get "refreshToken" (req_body req)))); [reflexivity |].
  destruct (verifyRefreshToken_value env now (get "refreshToken" (req_body req)))
    as [decoded | error]; cbn [mbind Result_bind].
  - destruct (user_findUnique_id db (userId (claims decoded))); reflexivity.
  - destruct (String.eqb (err_name error) "TokenExpiredError"); [reflexivity |].
    destruct (String.eqb (err_name error) "JsonWebTokenError"); reflexivity.
Qed.

Lemma signup_interleaved_effect env now salt seen db req :
  (signup_interleaved env now salt seen db req).2 = db \/
  (exists row,
      no_account db (u_email row) /\
      status (signup_interleaved env now salt seen db req).1 = 201 /\
      (signup_interleaved env now salt seen db req).2 = with_user db row).
Proof.
  unfold signup_interleaved, validate.
  destruct (schema_validate signupSchema (req_property body_ req)); [| left; reflexivity].
  cbn [and_then].
  match goal with |- context [post_signup_interleaved env now salt seen db ?r] =>
    destruct (post_signup_interleaved_effect env now salt seen db r)
      as [Hsame | (row & res & Hfree & Hstatus & Hpost)];
    [ left; destruct (post_signup_interleaved env now salt seen db r); exact Hsame
    | right; exists row; rewrite Hpost; auto ]
  end.
Qed.

(** The router sends a request to one of its three handlers, or passes it
    on. *)
Lemma authRoutes_cases env now salt db req :
  (req_method req = POST /\ req_path req = ["signup"] /\
   authRoutes env now salt db req =
     and_then (validate signupSchema body_ req) db (post_signup env now salt db)) \/
  (req_method req = POST /\ req_path req = ["login"] /\
   authRoutes env now salt db req =
     and_then (validate loginSchema body_ req) db (post_login env now db)) \/
  (req_method req = POST /\ req_path req = ["token"; "refresh"] /\
   authRoutes env now salt db req = post_token_refresh env now db req) \/
  authRoutes env now salt db req = (Next req, db).
Proof.
  unfold authRoutes.
  destruct (req_method req); try (right; right; right; reflexivity).
  destruct (req_path req) as [| a [| b [| c rest]]];
    try (right; right; right; reflexivity).
  - repeat first
      [ right; right; right; reflexivity
      | left; repeat split; reflexivity
      | right; left; repeat split; reflexivity
      | match goal with
        | |- context [match ?x with _ => _ end] => is_var x; destruct x
        end ].
  - repeat first
      [ right; right; right; reflexivity
      | right; right; left; repeat split; reflexivity
      | match goal with
        | |- context [match ?x with _ => _ end] => is_var x; destruct x
        end ].
  - repeat first
      [ right; right; right; reflexivity
      | match goal with
        | |- context [match ?x with _ => _ end] => is_var x; destruct x
        end ].
Qed.

(** What any request to the account routes does to the store: nothing, or
    one account inserted by a signup answered 201, under an address that
    was free. *)
Lemma auth_api_effect env now salt db req :
  (auth_api env now salt db req).2 = db \/
  (exists row,
      req_method req = POST /\ req_path req = ["signup"] /\
      no_account db (u_email row) /\
      status (auth_api env now salt db req).1 = 201 /\
      (auth_api env now salt db req).2 = with_user db row).
Proof.
  destruct (authRoutes_cases env now salt db req)
    as [(Hm & Hp & _) | [(_ & _ & Hr) | [(_ & _ & Hr) | Hr]]].
  - rewrite (auth_api_signup _ _ _ _ _ Hm Hp).
    destruct (signup_interleaved_effect env now salt db db req)
      as [Hsame | (row & Hfree & Hstatus & Hdb)]; [left; exact Hsame |].
    right. exists row. auto.
  - left. unfold auth_api. rewrite Hr. unfold validate.
    destruct (schema_validate loginSchema _); cbn [and_then]; [| reflexivity].
    match goal with |- context [post_login env now db ?r] =>
      pose proof (post_login_effect env now db r) as Hl;
      destruct (post_login env now db r); exact Hl
    end.
  - left. unfold auth_api. rewrite Hr.
    pose proof (post_token_refresh_effect env now db req) as Hl.
    destruct (post_token_refresh env now db req). exact Hl.
  - left. unfold auth_api. rewrite Hr. reflexivity.
Qed.

End AccountStore.

(** ** Invariants of the store *)

Lemma initial_ok : db_ok initial.
Proof.
  split; simpl; intros *; rewrite ?lookup_empty; discriminate.
Qed.

Section Ledger.
Context `{JsonWebToken, Bcrypt, JoiLib, JsGlobals}.

(** One request appends at most one row, to one table. *)
Lemma serve_effect env db c :
  (serve env db c).2 = db \/
  (exists row, is_Some (users db !! t_userId row) /\ (serve env db c).2 = with_trade db row) \/
  (exists row, no_account db (u_email row) /\ (serve env db c).2 = with_user db row).
Proof.
  destruct c as [now salt req | now req]; simpl.
  - destruct (auth_api_effect env now salt db req)
      as [Hsame | (row & _ & _ & Hfree & _ & Hdb)]; [auto |].
    right. right. eauto.
  - destruct (trades_api_effect env now db req)
      as [[Hsame _] | (row & _ & _ & Howner & _ & Hdb)]; [auto |].
    right. left. exists row. rewrite Hdb. auto.
Qed.

Lemma serve_ok env db c : db_ok db -> db_ok (serve env db c).2.
Proof.
  intros Hok.
  destruct (serve_effect env db c)
    as [-> | [(row & Howner & ->) | (row & Hfree & ->)]].
  - exact Hok.
  - exact (with_trade_ok _ _ Hok Howner).
  - exact (with_user_ok _ _ Hok Hfree).
Qed.

Lemma serve_keeps env db c :
  db_ok db ->
  (forall i row, trades db !! i = Some row -> trades (serve env db c).2 !! i = Some row) /\
  (forall i row, users db !! i = Some row -> users (serve env db c).2 !! i = Some row).
Proof.
  intros Hok.
  destruct (serve_effect env db c)
    as [-> | [(new & _ & ->) | (new & _ & ->)]]; simpl.
  - auto.
  - split; [| auto]. intros i row Hrow.
    rewrite lookup_insert_ne; [exact Hrow |].
    pose proof (trades_below _ Hok _ _ Hrow). lia.
  - split; [auto |]. intros i row Hrow.
    rewrite lookup_insert_ne; [exact Hrow |].
    pose proof (users_below _ Hok _ _ Hrow). lia.
Qed.

(** X3: the tables keep what the schema promises.  Ids lie below the
    counters, every trade is owned by an account and no two accounts
    share an e-mail address: this holds of a new installation, is kept by
    every request to the account routes and to the trade routes, hence
    holds after any sequence of requests; a signup whose existence check
    ran on an older state of the store keeps it as well. *)
Theorem requests_keep_db_ok env :
  db_ok initial /\
  (forall db c, db_ok db -> db_ok (serve env db c).2) /\
  (forall calls db, db_ok db -> db_ok (run env calls db)) /\
  (forall calls, db_ok (run env calls initial)) /\
  (forall now salt seen db req,
      db_ok db -> db_ok (signup_interleaved env now salt seen db req).2).
Proof.
  assert (Hrun : forall calls db, db_ok db -> db_ok (run env calls db)).
  { induction calls as [| c calls IH]; intros db Hok; [exact Hok |].
    unfold run. simpl. apply IH. exact (serve_ok env db c Hok). }
  split; [exact initial_ok |]. split; [exact (serve_ok env) |].
  split; [exact Hrun |]. split; [intros calls; exact (Hrun calls _ initial_ok) |].
  intros now salt seen db req Hok.
  destruct (signup_interleaved_effect env now salt seen db req)
    as [-> | (row & Hfree & _ & ->)]; [exact Hok |].
  exact (with_user_ok _ _ Hok Hfree).
Qed.

(** X4: nothing is ever lost.  Whatever requests are served, in whatever
    order, a trade once stored stays stored under its id with all of its
    fields, and so does an account: the service has no way to modify or
    delete a record. *)
Theorem records_are_never_lost env calls db :
  db_ok db ->
  (forall i row, trades db !! i = Some row -> trades (run env calls db) !! i = Some row) /\
  (forall i row, users db !! i = Some row -> users (run env calls db) !! i = Some row).
Proof.
  revert db. induction calls as [| c calls IH]; intros db Hok; [auto |].
  unfold run. simpl.
  destruct (serve_keeps env db c Hok) as [Htrades Husers].
  destruct (IH _ (serve_ok env db c Hok)) as [IHt IHu].
  split; intros i row Hrow.
  - apply IHt, Htrades, Hrow.
  - apply IHu, Husers, Hrow.
Qed.

(** X5: the trade routes write the store only by a POST /trades that is
    answered 201, and then append one trade, owned by an account, under
    the next id; every other request (a failed gate, a failed
    validation, a read, a refused modification, an error) leaves the
    store as it was.  The accounts are never written. *)
Theorem trades_api_writes_only_on_201 env now db req :
  (status (trades_api env now db req).1 <> 201 -> (trades_api env now db req).2 = db) /\
  (req_method req <> POST -> (trades_api env now db req).2 = db) /\
  (req_path req <> [] -> (trades_api env now db req).2 = db) /\
  (status (trades_api env now db req).1 = 201 ->
   exists row,
     is_Some (users db !! t_userId row) /\ t_timestamp row = now /\
     trades_api env now db req =
       (json 201 (responseTradeData (next_trade_id db, row)), with_trade db row)) /\
  users (trades_api env now db req).2 = users db.
Proof.
  destruct (trades_api_effect env now db req)
    as [[Hsame Hstatus] | (row & Hm & Hp & Howner & Htime & Hres)].
  - rewrite Hsame. repeat split; auto. intros H201. contradiction.
  - rewrite Hres. simpl. repeat split.
    + intros Hne. contradiction.
    + intros Hne. contradiction.
    + intros Hne. contradiction.
    + intros _. exists row. auto.
Qed.

End Ledger.

(** The concrete deployment with its trade satisfies the invariant. *)
Lemma scenario_db2_ok : db_ok Scenario.db2.
Proof.
  change Scenario.db2 with (with_trade (with_user initial Scenario.alice) Scenario.buy).
  apply with_trade_ok.
  - apply with_user_ok; [exact initial_ok |].
    intros i row Hrow. simpl in Hrow. rewrite lookup_empty in Hrow. discriminate.
  - simpl. rewrite lookup_insert_eq. eauto.
Qed.

(** On the concrete deployment: a DELETE, a PUT and a new trade later,
    trade 1 is still the record it was. *)
Lemma records_are_never_lost_witness :
  trades (@run Reference.jwt Reference.bcrypt Reference.joi Reference.globals Scenario.env
            [to_trades 7000 (Scenario.request DELETE ["1"] Scenario.bearer JNull (JObj []));
             to_trades 7001 (Scenario.request PUT ["1"] Scenario.bearer
                               (JObj [("shares", JInt 100)]) (JObj []));
             to_trades 7002 (Scenario.request POST [] Scenario.bearer
                               (Scenario.trade_body "sell" 1 25) (JObj []))]
            Scenario.db2) !! 1 = Some Scenario.buy.
Proof.
  apply (@records_are_never_lost Reference.jwt Reference.bcrypt Reference.joi
           Reference.globals Scenario.env _ Scenario.db2 scenario_db2_ok).
  reflexivity.
Defined.

(** ** The gate comes first *)

Section GateFirst.
Context `{JsonWebToken, JoiLib, JsGlobals}.

(** X6: the gate runs before the routes are matched.  Without an
    Authorization header every request to the trade routes, whatever its
    method, path and body, is answered 401 "Access token required" and
    the store is neither read nor written; a request the gate lets
    through for which the router has no route (more than one path
    segment, PUT, PATCH or DELETE on the collection, POST on an id) falls
    to the catch-all 404, which echoes the url and the method. *)
Theorem trades_gate_before_routes env now db req :
  (req_authorization req = None ->
   trades_api env now db req =
     (json 401 (JObj [("error", JStr "Access token required")]), db)) /\
  (forall r, authenticateToken env now req = Respond r ->
             forall db', (trades_api env now db req).1 = (trades_api env now db' req).1) /\
  (forall req',
      authenticateToken env now req = Next req' ->
      (exists a b rest, req_path req = a :: b :: rest) \/
      (req_path req = [] /\ req_method req <> POST /\ req_method req <> GET) \/
      (req_method req = POST /\ req_path req <> []) ->
      trades_api env now db req =
        (json 404 (JObj [("error", JStr "Route not found");
                         ("path", JStr (req_originalUrl req));
                         ("method", JStr (method_name (req_method req)))]), db)).
Proof.
  split; [| split].
  - intros Hnone. unfold trades_api, tradesRoutes, authenticateToken.
    rewrite Hnone. reflexivity.
  - intros r Hr db'. unfold trades_api, tradesRoutes. rewrite Hr. reflexivity.
  - intros req' Hauth Hroute.
    destruct (authenticateToken_passes _ _ _ _ Hauth) as [decoded ->].
    unfold trades_api, tradesRoutes. rewrite Hauth. cbn [and_then].
    change (req_method (set_user req decoded)) with (req_method req).
    change (req_path (set_user req decoded)) with (req_path req).
    destruct Hroute as [(a & b & rest & ->) | [(-> & Hnp & Hng) | [Hpost Hne]]].
    + destruct (req_method req) eqn:Hm; simpl; rewrite ?Hm; reflexivity.
    + destruct (req_method req) eqn:Hm; try contradiction; simpl; rewrite ?Hm; reflexivity.
    + rewrite Hpost.
      destruct (req_path req) as [| a [| b rest]];
        [contradiction | simpl; rewrite Hpost; reflexivity ..].
Qed.

(** X7: GET /trades/:id behind the gate.  An id that Joi does not read as
    a positive integer in the safe range is answered 400 "Validation
    failed"; an id that is one is answered 404 "Trade not found" when no
    trade has it and 200 with the record when one has; the store is left
    as it was in the three cases. *)
Theorem get_trade_outcomes env now db req req' s :
  authenticateToken env now req = Next req' ->
  req_method req = GET -> req_path req = [s] ->
  ((forall q, joi_to_number s = Some q ->
              ~ (safe_number q = true /\ is_integer q = true /\ (0 < q)%Q)) ->
   trades_api env now db req = (json 400 (JObj [("error", JStr "Validation failed")]), db)) /\
  (forall i, joi_to_number s = Some (inject_Z i) -> 0 < i <= MAX_SAFE_INTEGER ->
             trades db !! i = None ->
             trades_api env now db req = (json 404 (JObj [("error", JStr "Trade not found")]), db)) /\
  (forall i row, joi_to_number s = Some (inject_Z i) -> 0 < i <= MAX_SAFE_INTEGER ->
                 trades db !! i = Some row ->
                 trades_api env now db req = (json 200 (responseTradeData (i, row)), db)).
Proof.
  intros Hauth Hm Hp. split; [| split].
  - intros Hbad.
    destruct (authenticateToken_passes _ _ _ _ Hauth) as [decoded ->].
    unfold trades_api, tradesRoutes. rewrite Hauth. simpl. rewrite Hm, Hp.
    unfold validate, schema_validate. simpl. unfold validate_value. simpl.
    destruct (joi_to_number s) as [q |] eqn:Hq; [| reflexivity].
    specialize (Hbad q eq_refl).
    destruct (safe_number q) eqn:Hsafe; [| reflexivity].
    destruct (is_integer q) eqn:Hint; [| reflexivity].
    destruct (Qltb (inject_Z 0) q) eqn:Hpos; [| reflexivity].
    exfalso. apply Hbad. repeat split. apply Qltb_lt. exact Hpos.
  - intros i Hs Hi Hnone.
    rewrite (get_trade_by_id _ _ _ _ _ _ _ Hauth Hm Hp Hs Hi), Hnone. reflexivity.
  - intros i row Hs Hi Hrow.
    rewrite (get_trade_by_id _ _ _ _ _ _ _ Hauth Hm Hp Hs Hi), Hrow. reflexivity.
Qed.

(** X8: the filters of GET /trades are validated before the store is
    queried: a type that is not the string "buy" or "sell", or a user_id
    that Joi does not read as a positive integer, is answered 400
    "Validation failed". *)
Theorem list_trades_invalid_query env now db req req' :
  authenticateToken env now req = Next req' ->
  req_method req = GET -> req_path req = [] ->
  (exists x, get "type" (req_query req) = Some x /\ x <> JStr "buy" /\ x <> JStr "sell") \/
  (exists x, get "user_id" (req_query req) = Some x /\
             forall u, coerce_number x = Some u -> ~ (is_integer u = true /\ (0 < u)%Q)) ->
  trades_api env now db req = (json 400 (JObj [("error", JStr "Validation failed")]), db).
Proof.
  intros Hauth Hm Hp Hbad.
  destruct (authenticateToken_passes _ _ _ _ Hauth) as [decoded ->].
  unfold trades_api, tradesRoutes. rewrite Hauth. simpl. rewrite Hm, Hp.
  unfold validate, req_property. simpl.
  destruct (schema_validate tradeQuerySchema (req_query req)) as [query' |] eqn:Hv;
    [exfalso | reflexivity].
  destruct (tradeQuerySchema_fields _ _ Hv) as [Hty Hu].
  destruct Hbad as [(x & Hx & Hnb & Hns) | (x & Hx & Hnot)].
  - rewrite Hx in Hty. destruct Hty as (ty & -> & [-> | ->] & _); contradiction.
  - rewrite Hx in Hu. destruct Hu as (u & Hcu & Hui & Hup & _).
    exact (Hnot u Hcu (conj Hui Hup)).
Qed.

End GateFirst.

(** On the concrete deployment: /trades/abc and /trades/0 are refused,
    /trades/7 is not found, /trades/1 is served. *)
Lemma get_trade_outcomes_witness :
  Scenario.trades_ 7000 Scenario.db2
    (Scenario.request GET ["abc"] Scenario.bearer JNull (JObj [])) =
    (json 400 (JObj [("error", JStr "Validation failed")]), Scenario.db2) /\
  Scenario.trades_ 7000 Scenario.db2
    (Scenario.request GET ["7"] Scenario.bearer JNull (JObj [])) =
    (json 404 (JObj [("error", JStr "Trade not found")]), Scenario.db2) /\
  Scenario.trades_ 7000 Scenario.db2
    (Scenario.request GET ["1"] Scenario.bearer JNull (JObj [])) =
    (json 200 (responseTradeData (1, Scenario.buy)), Scenario.db2).
Proof.
  split; [| split].
  - destruct (@get_trade_outcomes Reference.jwt Reference.joi Reference.globals
                Scenario.env 7000 Scenario.db2
                (Scenario.request GET ["abc"] Scenario.bearer JNull (JObj []))
                _ "abc" eq_refl eq_refl eq_refl) as (Hbad & _).
    apply Hbad. intros q Hq. discriminate Hq.
  - destruct (@get_trade_outcomes Reference.jwt Reference.joi Reference.globals
                Scenario.env 7000 Scenario.db2
                (Scenario.request GET ["7"] Scenario.bearer JNull (JObj []))
                _ "7" eq_refl eq_refl eq_refl) as (_ & Hmissing & _).
    apply (Hmissing 7); [reflexivity | unfold MAX_SAFE_INTEGER; lia | reflexivity].
  - destruct (@get_trade_outcomes Reference.jwt Reference.joi Reference.globals
                Scenario.env 7000 Scenario.db2
                (Scenario.request GET ["1"] Scenario.bearer JNull (JObj []))
                _ "1" eq_refl eq_refl eq_refl) as (_ & _ & Hfound).
    apply (Hfound 1 Scenario.buy); [reflexivity | unfold MAX_SAFE_INTEGER; lia | reflexivity].
Defined.

(** On the concrete deployment: the filter type=hold is refused. *)
Lemma list_trades_invalid_query_witness :
  Scenario.trades_ 7000 Scenario.db2
    (Scenario.request GET [] Scenario.bearer JNull (JObj [("type", JStr "hold")])) =
  (json 400 (JObj [("error", JStr "Validation failed")]), Scenario.db2).
Proof.
  apply (@list_trades_invalid_query Reference.jwt Reference.joi Reference.globals
           Scenario.env 7000 Scenario.db2
           (Scenario.request GET [] Scenario.bearer JNull (JObj [("type", JStr "hold")]))
           _ eq_refl eq_refl eq_refl).
  left. exists (JStr "hold"). repeat split; discriminate.
Defined.

(** ** Create, then read *)

#[global] Instance ascending_antisymm : AntiSymm eq ascending.
Proof. intros a b Hab Hba. unfold ascending in *. lia. Qed.

(** The list query after an insertion: the list before, followed by the
    new trade if the filter admits it. *)
Lemma trade_findMany_with_trade db row w :
  (forall i r, trades db !! i = Some r -> i < next_trade_id db) ->
  trade_findMany (with_trade db row) w =
  trade_findMany db w ++ filter (matches w) [(next_trade_id db, row)].
Proof.
  intros Hbelow.
  assert (Hfresh : trades db !! next_trade_id db = None).
  { destruct (trades db !! next_trade_id db) as [r |] eqn:Hr; [| reflexivity].
    specialize (Hbelow _ _ Hr). lia. }
  apply (StronglySorted_unique ascending).
  - apply trade_findMany_ascending.
  - apply StronglySorted_app_2.
    + intros x1 x2 Hx1 Hx2.
      apply trade_findMany_elem in Hx1 as [Hstored _].
      apply list_elem_of_filter in Hx2 as [_ Hx2].
      apply list_elem_of_singleton in Hx2 as ->.
      unfold ascending. simpl. exact (Hbelow _ _ Hstored).
    + apply trade_findMany_ascending.
    + destruct (decide (matches w (next_trade_id db, row))) as [Hm | Hm].
      * rewrite filter_cons_True by exact Hm. repeat constructor.
      * rewrite filter_cons_False by exact Hm. constructor.
  - unfold trade_findMany, with_trade. cbn [trades].
    rewrite !merge_sort_Permutation.
    rewrite (map_to_list_insert (trades db) _ _ Hfresh).
    change ((next_trade_id db, row) :: map_to_list (trades db))
      with ([(next_trade_id db, row)] ++ map_to_list (trades db)).
    rewrite filter_app. apply Permutation_app_comm.
Qed.

Section CreateThenRead.
Context `{JsonWebToken, JoiLib, JsGlobals}.

(** X9: a created trade can be read back.  When POST /trades is answered
    201, a later GET /trades/:id for the id of the answer returns the
    very same body (the same id, direction, owner, upper-case symbol,
    share count, price and timestamp). *)
Theorem created_trade_is_retrievable env now later db post b db' read read' s :
  trades_api env now db post = (json 201 b, db') ->
  authenticateToken env later read = Next read' ->
  req_method read = GET -> req_path read = [s] ->
  joi_to_number s = Some (inject_Z (next_trade_id db)) ->
  0 < next_trade_id db <= MAX_SAFE_INTEGER ->
  get "id" b = Some (JInt (next_trade_id db)) /\
  trades_api env later db' read = (json 200 b, db').
Proof.
  intros Hpost Hauth Hm Hp Hs Hid.
  destruct (trades_api_effect env now db post)
    as [[_ Hstatus] | (row & _ & _ & _ & _ & Hres)].
  { rewrite Hpost in Hstatus. simpl in Hstatus. contradiction. }
  rewrite Hres in Hpost. injection Hpost as <- <-.
  split; [reflexivity |].
  rewrite (get_trade_by_id _ _ _ _ _ _ _ Hauth Hm Hp Hs Hid).
  simpl. rewrite lookup_insert_eq. reflexivity.
Qed.

(** X10: ids are handed out in the order of creation.  When POST /trades
    is answered 201, the unfiltered list of trades afterwards is the list
    before followed by the body of that answer: the new trade comes last
    and the trades before it keep their places. *)
Theorem created_trade_is_listed_last env now later db post b db' read read' query' :
  db_ok db ->
  trades_api env now db post = (json 201 b, db') ->
  authenticateToken env later read = Next read' ->
  req_method read = GET -> req_path read = [] ->
  schema_validate tradeQuerySchema (req_query read) = Some query' ->
  get "type" (req_query read) = None -> get "user_id" (req_query read) = None ->
  exists before,
    trades_api env later db read = (json 200 (JArr before), db) /\
    trades_api env later db' read = (json 200 (JArr (before ++ [b])), db').
Proof.
  intros Hok Hpost Hauth Hm Hp Hv Hty Hu.
  destruct (trades_api_effect env now db post)
    as [[_ Hstatus] | (row & _ & _ & _ & _ & Hres)].
  { rewrite Hpost in Hstatus. simpl in Hstatus. contradiction. }
  rewrite Hres in Hpost. injection Hpost as <- <-.
  exists (responseTradeData <$> trade_findMany db (query_where (req_query read))).
  rewrite !(get_trades_authenticated _ _ _ _ _ _ Hauth Hm Hp Hv).
  split; [reflexivity |].
  rewrite (trade_findMany_with_trade _ _ _ (trades_below _ Hok)).
  rewrite filter_cons_True.
  - rewrite fmap_app. reflexivity.
  - unfold matches, query_where. simpl. rewrite Hty, Hu. simpl. auto.
Qed.

End CreateThenRead.

(** On the concrete deployment: the trade created by account 1 is read
    back under id 1. *)
Lemma created_trade_is_retrievable_witness :
  Scenario.trades_ 7000
    (Scenario.trades_ 6000 Scenario.db1
       (Scenario.request POST [] Scenario.bearer (Scenario.trade_body "buy" 1 50) (JObj []))).2
    (Scenario.request GET ["1"] Scenario.bearer JNull (JObj [])) =
  (json 200 (responseTradeData (1, Scenario.buy)), Scenario.db2).
Proof.
  refine (proj2 (@created_trade_is_retrievable Reference.jwt Reference.joi Reference.globals
           Scenario.env 6000 7000 Scenario.db1
           (Scenario.request POST [] Scenario.bearer (Scenario.trade_body "buy" 1 50) (JObj []))
           (responseTradeData (1, Scenario.buy)) Scenario.db2
           (Scenario.request GET ["1"] Scenario.bearer JNull (JObj []))
           _ "1" eq_refl eq_refl eq_refl eq_refl eq_refl _)).
  unfold MAX_SAFE_INTEGER. simpl. lia.
Defined.

(** On the concrete deployment: after trade 1, a "sell" is created and
    listed second. *)
Lemma created_trade_is_listed_last_witness :
  exists before,
    Scenario.trades_ 8000 Scenario.db2
      (Scenario.request GET [] Scenario.bearer JNull (JObj [])) =
      (json 200 (JArr before), Scenario.db2) /\
    (Scenario.trades_ 8000
       (Scenario.trades_ 7000 Scenario.db2
          (Scenario.request POST [] Scenario.bearer (Scenario.trade_body "sell" 1 25) (JObj []))).2
       (Scenario.request GET [] Scenario.bearer JNull (JObj []))).1 =
      json 200 (JArr (before ++
        [responseTradeData (2, {| t_type := "sell"; t_userId := 1; t_symbol := "AAPL";
                                  t_shares := 25; t_price := 601 # 4;
                                  t_timestamp := 7000 |})])).
Proof.
  destruct (@created_trade_is_listed_last Reference.jwt Reference.joi Reference.globals
              Scenario.env 7000 8000 Scenario.db2
              (Scenario.request POST [] Scenario.bearer (Scenario.trade_body "sell" 1 25) (JObj []))
              _ _
              (Scenario.request GET [] Scenario.bearer JNull (JObj []))
              _ _ scenario_db2_ok eq_refl eq_refl eq_refl eq_refl eq_refl eq_refl eq_refl)
    as (before & Hbefore & Hafter).
  exists before. split; [exact Hbefore |]. exact (f_equal fst Hafter).
Defined.

(** ** Accounts: edges and compositions *)

Section AccountEdges.
Context `{JsonWebToken, Bcrypt, JoiLib}.

(** X11: signup validates before it looks anything up.  A body whose
    email is missing, is not a string or is not a well-formed address, or
    whose password is missing, is not a string or has a length below six
    (as JavaScript counts it, in UTF-16 units: three accented letters are
    three, whatever bytes encode them), is answered 400 "Validation
    failed" and no account is created. *)
Theorem signup_rejects_invalid env now salt db req :
  req_method req = POST -> req_path req = ["signup"] ->
  (forall e, get "email" (req_body req) = Some (JStr e) -> joi_is_email e = false) \/
  (forall p, get "password" (req_body req) = Some (JStr p) -> (js_length p < 6)%nat) ->
  auth_api env now salt db req =
    (json 400 (JObj [("error", JStr "Validation failed")]), db).
Proof.
  intros Hm Hp Hbad.
  rewrite (auth_api_signup _ _ _ _ _ Hm Hp).
  unfold signup_interleaved, validate, req_property.
  destruct (schema_validate signupSchema (req_body req)) as [value |] eqn:Hv;
    [exfalso | reflexivity].
  destruct (signupSchema_fields _ _ Hv) as (e & p & He & Hpw & _ & _ & Hmail & Hlen).
  destruct Hbad as [Hbad | Hbad].
  - rewrite (Hbad e He) in Hmail. discriminate.
  - specialize (Hbad p Hpw). lia.
Qed.

(** X12: login with the right password.  When the body passes the
    schema, its address is that of an account and its password matches
    the stored hash, the answer is 200 "Login successful" with the id and
    address of that account, a fresh access token and a fresh refresh
    token bound to its id; the hash is not in the answer, the store is not
    written, and the access token verifies at once to the id of the
    account, as the refresh token does against the refresh secret (their
    configured lifetimes being positive). *)
Theorem login_success env now salt db req e p i row :
  db_ok db ->
  valid_post ["login"] loginSchema req ->
  get "email" (req_body req) = Some (JStr e) ->
  get "password" (req_body req) = Some (JStr p) ->
  users db !! i = Some row -> u_email row = e ->
  bcrypt_compare p (u_password row) = true ->
  auth_api env now salt db req =
    (json 200 (JObj [("message", JStr "Login successful");
                     ("user", JObj [("id", JInt i); ("email", JStr e)]);
                     ("accessToken", JStr (generateAccessToken env now
                        {| userId := i; email := Some e |}));
                     ("refreshToken", JStr (generateRefreshToken env now
                        {| userId := i; email := None |}))]), db) /\
  (0 < access_expiry env ->
   exists decoded,
     verifyAccessToken env now
       (generateAccessToken env now {| userId := i; email := Some e |}) = Ok decoded /\
     userId (claims decoded) = i) /\
  (0 < refresh_expiry env ->
   exists decoded,
     verifyRefreshToken env now
       (generateRefreshToken env now {| userId := i; email := None |}) = Ok decoded /\
     userId (claims decoded) = i).
Proof.
  intros Hok Hreq He Hp Hrow Hmail Hmatch. split; [| split].
  - rewrite (login_outcome _ _ _ _ _ _ _ Hreq He Hp).
    destruct (user_findUnique_email_is_Some db e) as [user Huser].
    { exists i, row. auto. }
    rewrite Huser. apply user_findUnique_email_Some in Huser as [Hfound Hfmail].
    assert (Hi : user.1 = i).
    { apply (emails_unique _ Hok _ _ _ _ Hfound Hrow). congruence. }
    destruct user as [j row']. simpl in *. subst j.
    rewrite Hrow in Hfound. injection Hfound as <-.
    rewrite Hmatch. unfold user_json. simpl. rewrite Hmail. reflexivity.
  - intros Hlife. eexists. split.
    + unfold verifyAccessToken, generateAccessToken. apply jwt_verify_sign. lia.
    + reflexivity.
  - intros Hlife. eexists. split.
    + unfold verifyRefreshToken, generateRefreshToken. apply jwt_verify_sign. lia.
    + reflexivity.
Qed.

(** X13: a failed login tells nothing about the accounts.  For one and
    the same login request served on two states of the store, if neither
    answer is the 200 of a successful login the two answers are equal:
    whether the body is refused by validation (400) or the credentials
    are refused (401), the answer does not depend on which accounts
    exist. *)
Theorem failed_login_reveals_nothing env now now' salt salt' db db' req :
  req_method req = POST -> req_path req = ["login"] ->
  status (auth_api env now salt db req).1 <> 200 ->
  status (auth_api env now' salt' db' req).1 <> 200 ->
  (auth_api env now salt db req).1 = (auth_api env now' salt' db' req).1.
Proof.
  intros Hm Hp.
  destruct (schema_validate loginSchema (req_body req)) as [value |] eqn:Hv.
  - destruct (loginSchema_fields _ _ Hv) as (e & p & He & Hpw & _).
    assert (Hreq : valid_post ["login"] loginSchema req).
    { repeat split; try assumption. rewrite Hv. eauto. }
    rewrite !(login_outcome _ _ _ _ _ _ _ Hreq He Hpw). simpl.
    destruct (user_findUnique_email db e) as [u |];
      destruct (user_findUnique_email db' e) as [u' |];
      try destruct (bcrypt_compare p (u_password u.2));
      try destruct (bcrypt_compare p (u_password u'.2));
      simpl; intros H200 H200'; try reflexivity; contradiction.
  - intros _ _. unfold auth_api, authRoutes. rewrite Hm, Hp.
    unfold validate, req_property. rewrite Hv. reflexivity.
Qed.

(** X14: the refresh token handed out at signup can be exchanged.  After
    a valid signup for a free address, presenting the returned refresh
    token within its lifetime is answered 200 with one new access token
    for the new account, which verifies at once to its id (the lifetime
    of an access token being positive). *)
Theorem signup_then_refresh env now later salt salt' db req e p refresh :
  valid_post ["signup"] signupSchema req ->
  get "email" (req_body req) = Some (JStr e) ->
  get "password" (req_body req) = Some (JStr p) ->
  no_account db e ->
  let id := next_user_id db in
  let refreshToken := generateRefreshToken env now {| userId := id; email := None |} in
  get "refreshToken" (body (auth_api env now salt db req).1) = Some (JStr refreshToken) /\
  (refresh_request refresh refreshToken ->
   clock later < clock now + refresh_expiry env ->
   auth_api env later salt' (auth_api env now salt db req).2 refresh =
     (json 200 (JObj [("accessToken", JStr (generateAccessToken env later
         {| userId := id; email := Some e |}))]),
      (auth_api env now salt db req).2) /\
   (0 < access_expiry env ->
    exists decoded,
      verifyAccessToken env later
        (generateAccessToken env later {| userId := id; email := Some e |}) = Ok decoded /\
      userId (claims decoded) = id)).
Proof.
  intros Hreq He Hp Hno id refreshToken.
  assert (Hsignup := signup_outcome env now salt db db req e p Hreq He Hp).
  rewrite (user_findUnique_email_None _ _ Hno) in Hsignup.
  destruct Hreq as (Hm & Hpath & _).
  rewrite (auth_api_signup _ _ _ _ _ Hm Hpath), Hsignup.
  split; [reflexivity |].
  intros Hrefresh Hfresh. split.
  - rewrite (refresh_outcome _ _ _ _ _ _ Hrefresh).
    unfold refreshToken, verifyRefreshToken, generateRefreshToken.
    rewrite (jwt_verify_sign _ _ _ _ _ Hfresh). cbn [claims userId snd users].
    rewrite lookup_insert_eq. reflexivity.
  - intros Hlife. eexists. split.
    + unfold verifyAccessToken, generateAccessToken. apply jwt_verify_sign. lia.
    + reflexivity.
Qed.

(** X15: POST /token/refresh without a usable token.  A body with no
    refreshToken, or a null, empty, false or zero one, is answered 401
    "Refresh token required"; a refreshToken that is present but not a
    string (a number, true, an array, an object) is answered 401 "Invalid
    refresh token"; the store is not written. *)
Theorem refresh_token_presence env now salt db req :
  req_method req = POST -> req_path req = ["token"; "refresh"] ->
  (truthy (get "refreshToken" (req_body req)) = false ->
   auth_api env now salt db req =
     (json 401 (JObj [("error", JStr "Refresh token required")]), db)) /\
  (truthy (get "refreshToken" (req_body req)) = true ->
   (forall token, get "refreshToken" (req_body req) <> Some (JStr token)) ->
   auth_api env now salt db req =
     (json 401 (JObj [("error", JStr "Invalid refresh token")]), db)).
Proof.
  intros Hm Hp. unfold auth_api, authRoutes. rewrite Hm, Hp.
  unfold post_token_refresh. split.
  - intros ->. reflexivity.
  - intros -> Hnostring. simpl.
    destruct (get "refreshToken" (req_body req)) as [[| | | token | |] |];
      try reflexivity.
    exfalso. exact (Hnostring token eq_refl).
Qed.


End AccountEdges.

Lemma scenario_db1_ok : db_ok Scenario.db1.
Proof.
  change Scenario.db1 with (with_user initial Scenario.alice).
  apply with_user_ok; [exact initial_ok |].
  intros i row Hrow. simpl in Hrow. rewrite lookup_empty in Hrow. discriminate.
Qed.

(** On the concrete deployment: a password of three characters is
    refused, also when the three characters take six bytes. *)
Lemma signup_rejects_invalid_witness :
  Scenario.auth 5000 "" Scenario.empty
    (Scenario.request POST ["signup"] None
       (JObj [("email", JStr "a@b.com"); ("password", JStr "123")]) (JObj [])) =
  (json 400 (JObj [("error", JStr "Validation failed")]), Scenario.empty) /\
  String.length Scenario.three_accents = 6%nat /\
  Scenario.auth 5000 "" Scenario.empty
    (Scenario.request POST ["signup"] None
       (JObj [("email", JStr "a@b.com"); ("password", JStr Scenario.three_accents)])
       (JObj [])) =
  (json 400 (JObj [("error", JStr "Validation failed")]), Scenario.empty).
Proof.
  split; [| split; [reflexivity |]].
  - apply (@signup_rejects_invalid Reference.jwt Reference.bcrypt Reference.joi
             Scenario.env 5000 "" Scenario.empty
             (Scenario.request POST ["signup"] None
                (JObj [("email", JStr "a@b.com"); ("password", JStr "123")]) (JObj []))
             eq_refl eq_refl).
    right. intros p [= <-]. simpl. lia.
  - apply (@signup_rejects_invalid Reference.jwt Reference.bcrypt Reference.joi
             Scenario.env 5000 "" Scenario.empty
             (Scenario.request POST ["signup"] None
                (JObj [("email", JStr "a@b.com"); ("password", JStr Scenario.three_accents)])
                (JObj []))
             eq_refl eq_refl).
    right. intros p [= <-]. simpl. lia.
Defined.

(** On the concrete deployment: account 1 logs in. *)
Lemma login_success_witness :
  Scenario.auth 7000 "" Scenario.db1
    (Scenario.request POST ["login"] None
       (JObj [("email", JStr "a@b.com"); ("password", JStr "secret1")]) (JObj [])) =
  (json 200 (JObj [("message", JStr "Login successful");
                   ("user", JObj [("id", JInt 1); ("email", JStr "a@b.com")]);
                   ("accessToken", JStr (@generateAccessToken Reference.jwt Scenario.env 7000
                      {| userId := 1; email := Some "a@b.com" |}));
                   ("refreshToken", JStr (@generateRefreshToken Reference.jwt Scenario.env 7000
                      {| userId := 1; email := None |}))]), Scenario.db1).
Proof.
  refine (proj1 (@login_success Reference.jwt Reference.bcrypt Reference.joi
            Scenario.env 7000 "" Scenario.db1
            (Scenario.request POST ["login"] None
               (JObj [("email", JStr "a@b.com"); ("password", JStr "secret1")]) (JObj []))
            "a@b.com" "secret1" 1 Scenario.alice scenario_db1_ok _
            eq_refl eq_refl eq_refl eq_refl eq_refl)).
  repeat split; eexists; reflexivity.
Defined.

(** On the concrete deployment: a wrong password gets the same answer
    whether the account exists or not. *)
Lemma failed_login_reveals_nothing_witness :
  (Scenario.auth 7000 "" Scenario.empty
     (Scenario.request POST ["login"] None
        (JObj [("email", JStr "a@b.com"); ("password", JStr "guess")]) (JObj []))).1 =
  (Scenario.auth 7000 "" Scenario.db1
     (Scenario.request POST ["login"] None
        (JObj [("email", JStr "a@b.com"); ("password", JStr "guess")]) (JObj []))).1.
Proof.
  apply (@failed_login_reveals_nothing Reference.jwt Reference.bcrypt Reference.joi
           Scenario.env 7000 7000 "" "" Scenario.empty Scenario.db1
           (Scenario.request POST ["login"] None
              (JObj [("email", JStr "a@b.com"); ("password", JStr "guess")]) (JObj []))
           eq_refl eq_refl);
    vm_compute; discriminate.
Defined.

(** On the concrete deployment: the refresh token of the signup at 5000
    buys an access token at 6000. *)
Lemma signup_then_refresh_witness :
  Scenario.auth 6000 "" (Scenario.auth 5000 "" Scenario.empty Scenario.signup).2
    (Scenario.request POST ["token"; "refresh"] None
       (JObj [("refreshToken", JStr Scenario.refreshToken)]) (JObj [])) =
  (json 200 (JObj [("accessToken", JStr (@generateAccessToken Reference.jwt Scenario.env 6000
      {| userId := 1; email := Some "a@b.com" |}))]),
   (Scenario.auth 5000 "" Scenario.empty Scenario.signup).2).
Proof.
  destruct (@signup_then_refresh Reference.jwt Reference.bcrypt Reference.joi
              Scenario.env 5000 6000 "" "" Scenario.empty Scenario.signup
              "a@b.com" "secret1"
              (Scenario.request POST ["token"; "refresh"] None
                 (JObj [("refreshToken", JStr Scenario.refreshToken)]) (JObj [])))
    as [_ Hexchange].
  - repeat split; eexists; reflexivity.
  - reflexivity.
  - reflexivity.
  - intros i row Hrow. simpl in Hrow. rewrite lookup_empty in Hrow. discriminate.
  - apply Hexchange.
    + repeat split. discriminate.
    + reflexivity.
Defined.

(** On the concrete deployment: an empty body is asked for a token. *)
Lemma refresh_token_presence_witness :
  Scenario.auth 6000 "" Scenario.db1
    (Scenario.request POST ["token"; "refresh"] None (JObj []) (JObj [])) =
  (json 401 (JObj [("error", JStr "Refresh token required")]), Scenario.db1).
Proof.
  exact (proj1 (@refresh_token_presence Reference.jwt Reference.bcrypt Reference.joi
                  Scenario.env 6000 "" Scenario.db1
                  (Scenario.request POST ["token"; "refresh"] None (JObj []) (JObj []))
                  eq_refl eq_refl) eq_refl).
Defined.


(** On the concrete deployment: the access token issued at second 5 is
    refused as expired at second 700. *)
Lemma expired_access_token_rejected_witness :
  Scenario.gate 700000 (Scenario.request GET [] Scenario.bearer JNull (JObj [])) =
  Respond (json 401 (JObj [("error", JStr "Access token expired")])).
Proof.
  apply (@expired_access_token_rejected Reference.jwt Scenario.env 5000 700000
           {| userId := 1; email := Some "a@b.com" |}
           (Scenario.request GET [] Scenario.bearer JNull (JObj []))).
  - reflexivity.
  - reflexivity.
  - discriminate.
  - vm_compute. discriminate.
Defined.

(** On the concrete deployment: the account created by the signup logs
    in. *)
Lemma login_after_signup_witness :
  status (Scenario.auth 7000 ""
            (Scenario.auth 5000 "" Scenario.empty Scenario.signup).2
            (Scenario.request POST ["login"] None
               (JObj [("email", JStr "a@b.com"); ("password", JStr "secret1")]) (JObj []))).1
  = 200.
Proof.
  apply (@login_after_signup Reference.jwt Reference.bcrypt Reference.joi
           Scenario.env 5000 7000 "" "" Scenario.empty Scenario.signup
           (Scenario.request POST ["login"] None
              (JObj [("email", JStr "a@b.com"); ("password", JStr "secret1")]) (JObj []))
           "a@b.com" "secret1").
  - repeat split; eexists; reflexivity.
  - reflexivity.
  - reflexivity.
  - intros i row Hrow. simpl in Hrow. rewrite lookup_empty in Hrow. discriminate.
  - repeat split; eexists; reflexivity.
  - reflexivity.
  - reflexivity.
Defined.

Section Writes.
Context `{JsonWebToken, Bcrypt, JoiLib, JsGlobals}.

(** X17: two signups for the same free address that both run their
    existence check before either inserts create one account, not two.
    The first insertion is answered 201; the second meets the unique
    constraint of the store, is answered 409 and writes nothing; in the
    end the address belongs to exactly one account, the one of the first
    request, with the hash of its password. *)
Theorem concurrent_signups_create_one_account env now now' salt salt' db req req' e p p' :
  valid_post ["signup"] signupSchema req ->
  get "email" (req_body req) = Some (JStr e) ->
  get "password" (req_body req) = Some (JStr p) ->
  valid_post ["signup"] signupSchema req' ->
  get "email" (req_body req') = Some (JStr e) ->
  get "password" (req_body req') = Some (JStr p') ->
  no_account db e ->
  let first := signup_interleaved env now salt db db req in
  let second := signup_interleaved env now' salt' db first.2 req' in
  status first.1 = 201 /\
  second = (json 409 (JObj [("error", JStr "Unique constraint violation");
                            ("details", JStr "A record with this data already exists")]),
            first.2) /\
  users second.2 !! next_user_id db =
    Some {| u_email := e; u_password := bcrypt_hash p 12 salt |} /\
  (forall i row, users second.2 !! i = Some row -> u_email row = e -> i = next_user_id db).
Proof.
  intros Hreq He Hp Hreq' He' Hp' Hno first second.
  assert (Hfirst := signup_outcome env now salt db db req e p Hreq He Hp).
  rewrite (user_findUnique_email_None _ _ Hno) in Hfirst.
  fold first in Hfirst.
  assert (Hsecond := signup_outcome env now' salt' db first.2 req' e p' Hreq' He' Hp').
  fold second in Hsecond.
  rewrite (user_findUnique_email_None _ _ Hno) in Hsecond.
  destruct (user_findUnique_email_is_Some first.2 e) as [user Huser].
  { rewrite Hfirst. exists (next_user_id db). eexists. simpl.
    split; [apply lookup_insert_eq | reflexivity]. }
  rewrite Huser in Hsecond.
  split; [rewrite Hfirst; reflexivity |]. split; [exact Hsecond |].
  rewrite Hsecond. cbn [snd]. rewrite Hfirst. cbn [snd users].
  split; [apply lookup_insert_eq |].
  intros i row Hrow Hmail.
  apply lookup_insert_Some in Hrow as [[<- _] | [_ Hold]]; [reflexivity |].
  exfalso. exact (Hno _ _ Hold Hmail).
Qed.

(** The numbers of a body, as Joi accepts them. *)
Lemma validate_value_number_ok sch q :
  joi_valid sch = None -> joi_type sch = JoiNumber ->
  safe_number q = true -> forallb (number_rule q) (joi_rules sch) = true ->
  validate_value sch (JNum q) = Some (JNum q).
Proof.
  intros Hvalid Hty Hsafe Hrules. unfold validate_value.
  rewrite Hvalid, Hty. simpl. rewrite Hsafe, Hrules. reflexivity.
Qed.

(** X18: a trade within the rules is accepted.  For every direction
    "buy" or "sell", every owner that is an account, every non-empty
    symbol, every whole number of shares from 1 to 100 (the bounds
    included) and every positive price in the safe range, the
    authenticated POST /trades of these five fields is answered 201 with
    the record, stored under the next id, its symbol put in upper case by
    the runtime's [toUpperCase]: in a symbol of ASCII characters every
    letter a to z is replaced by its capital and every other character
    is kept. *)
Theorem valid_trade_is_accepted env now db req req' i owner :
  authenticateToken env now req = Next req' ->
  req_method req = POST -> req_path req = [] ->
  req_body req = JObj [("type", JStr (in_type i)); ("user_id", JNum (in_user_id i));
                       ("symbol", JStr (in_symbol i)); ("shares", JNum (in_shares i));
                       ("price", JNum (in_price i))] ->
  within_rules i ->
  safe_number (in_user_id i) = true -> safe_number (in_price i) = true ->
  users db !! Qtrunc (in_user_id i) = Some owner ->
  trades_api env now db req =
    (json 201 (responseTradeData (next_trade_id db, trade_of now i)),
     with_trade db (trade_of now i)) /\
  t_symbol (trade_of now i) = toUpperCase (in_symbol i) /\
  (ascii_text (in_symbol i) -> capitals (in_symbol i) (t_symbol (trade_of now i))).
Proof.
  intros Hauth Hm Hp Hbody Hrules Hsafe_u Hsafe_p Howner.
  split; [| split; [reflexivity | apply toUpperCase_capitals]].
  pose proof Hrules as (Hty & (Hui & Hup) & Hsym & (Hni & Hn1 & Hn100) & Hpp).
  assert (Hsafe_n : safe_number (in_shares i) = true).
  { unfold safe_number. apply andb_true_iff. split; apply Qleb_le.
    - eapply Qle_trans; [| exact Hn1]. discriminate.
    - eapply Qle_trans; [exact Hn100 |]. discriminate. }
  apply Qltb_lt in Hup, Hpp. apply Qleb_le in Hn1, Hn100.
  assert (Hv : schema_validate createTradeSchema (req_body req) = Some (req_body req)).
  { rewrite Hbody. unfold schema_validate. simpl.
    assert (Htype : validate_value (Joi.required (Joi.valid ["buy"; "sell"] Joi.string))
                      (JStr (in_type i)) = Some (JStr (in_type i))).
    { unfold validate_value. simpl. destruct Hty as [-> | ->]; reflexivity. }
    assert (Hsymbol : validate_value (Joi.required Joi.string) (JStr (in_symbol i)) =
                      Some (JStr (in_symbol i))).
    { unfold validate_value. simpl.
      destruct (String.eqb_spec (in_symbol i) ""); [contradiction | reflexivity]. }
    rewrite Htype, Hsymbol.
    rewrite !validate_value_number_ok; try reflexivity; try assumption;
      cbn -[Qltb Qleb is_integer]; unfold inject_Z;
      rewrite ?Hpp, ?Hui, ?Hup, ?Hni, ?Hn1, ?Hn100; reflexivity. }
  rewrite (post_trades_authenticated env now db req req' Hauth Hm Hp), Hv.
  rewrite (post_trade_valid now db (set_property body_ req' (req_body req)) i Hrules);
    try (cbn [req_body set_property]; rewrite Hbody; reflexivity).
  rewrite Howner. reflexivity.
Qed.

End Writes.

(** On the concrete deployment: two signups for "a@b.com" whose checks
    both ran on the empty store leave one account. *)
Lemma concurrent_signups_create_one_account_witness :
  (@signup_interleaved Reference.jwt Reference.bcrypt Reference.joi Scenario.env 5001 ""
     Scenario.empty
     (@signup_interleaved Reference.jwt Reference.bcrypt Reference.joi Scenario.env 5000 ""
        Scenario.empty Scenario.empty Scenario.signup).2
     Scenario.signup) =
  (json 409 (JObj [("error", JStr "Unique constraint violation");
                   ("details", JStr "A record with this data already exists")]),
   Scenario.db1).
Proof.
  destruct (@concurrent_signups_create_one_account Reference.jwt Reference.bcrypt Reference.joi
              Scenario.env 5000 5001 "" "" Scenario.empty Scenario.signup Scenario.signup
              "a@b.com" "secret1" "secret1")
    as (_ & Hsecond & _).
  - repeat split; eexists; reflexivity.
  - reflexivity.
  - reflexivity.
  - repeat split; eexists; reflexivity.
  - reflexivity.
  - reflexivity.
  - intros i row Hrow. simpl in Hrow. rewrite lookup_empty in Hrow. discriminate.
  - exact Hsecond.
Defined.

(** On the concrete deployment: one share and a hundred shares are both
    accepted, and the symbol "aapl" is stored as "AAPL". *)
Lemma valid_trade_is_accepted_witness :
  status (Scenario.trades_ 6000 Scenario.db1
            (Scenario.request POST [] Scenario.bearer (Scenario.trade_body "sell" 1 1) (JObj []))).1
    = 201 /\
  trades (Scenario.trades_ 6000 Scenario.db1
            (Scenario.request POST [] Scenario.bearer (Scenario.trade_body "sell" 1 100) (JObj []))).2
    !! 1 = Some {| t_type := "sell"; t_userId := 1; t_symbol := "AAPL"; t_shares := 100;
                   t_price := 601 # 4; t_timestamp := 6000 |}.
Proof.
  unfold Scenario.trades_. split.
  - destruct (@valid_trade_is_accepted Reference.jwt Reference.joi Reference.globals
                Scenario.env 6000 Scenario.db1
                (Scenario.request POST [] Scenario.bearer (Scenario.trade_body "sell" 1 1) (JObj []))
                _ {| in_type := "sell"; in_user_id := inject_Z 1; in_symbol := "aapl";
                     in_shares := inject_Z 1; in_price := 601 # 4 |}
                Scenario.alice eq_refl eq_refl eq_refl eq_refl) as [Hcreated _].
    + repeat split; try discriminate; auto.
    + reflexivity.
    + reflexivity.
    + reflexivity.
    + rewrite Hcreated. reflexivity.
  - destruct (@valid_trade_is_accepted Reference.jwt Reference.joi Reference.globals
                Scenario.env 6000 Scenario.db1
                (Scenario.request POST [] Scenario.bearer (Scenario.trade_body "sell" 1 100) (JObj []))
                _ {| in_type := "sell"; in_user_id := inject_Z 1; in_symbol := "aapl";
                     in_shares := inject_Z 100; in_price := 601 # 4 |}
                Scenario.alice eq_refl eq_refl eq_refl eq_refl) as [Hcreated _].
    + repeat split; try discriminate; auto.
    + reflexivity.
    + reflexivity.
    + reflexivity.
    + rewrite Hcreated. reflexivity.
Defined.
